(** * autocoder UI: data contracts and the two presentational components

    A shallow embedding of
    - [ui/src/lib/types.ts]: the typed message contracts mirrored from the
      backend, together with the [AgentControl] / [StatusIndicator]
      components that ship in the same file;
    - [ui/src/components/SpecCreationChat.tsx]: the guided spec-creation
      chat component.

    Components are modelled as pure functions from props, hook results and
    local [useState] cells to a virtual DOM tree.  Event handlers are the
    lists of calls they perform; [useEffect] bodies are lists of calls
    fired by a small model of the React effect schedule. *)

From Stdlib Require Import Floats.PrimFloat.
From stdpp Require Import gmap strings list fin_maps.

Set Default Proof Using "Type".
Local Set Warnings "-register-all".

(** ** JavaScript strings

    A JS string is a sequence of UTF-16 code units.  Static source
    literals are written with [js]. *)

Module JsString.

Definition code_unit := N.
Definition jsstring := list code_unit.

Definition js (s : string) : jsstring :=
  map Ascii.N_of_ascii (String.list_ascii_of_string s).

(** ECMAScript [WhiteSpace] and [LineTerminator] code points; all of
    them lie in the basic plane, so each is a single code unit. *)
Definition is_white_space (c : code_unit) : bool :=
  ((c =? 0x09) || (c =? 0x0B) || (c =? 0x0C) || (c =? 0x20) ||
   (c =? 0xA0) || (c =? 0x1680) ||
   ((0x2000 <=? c) && (c <=? 0x200A)) ||
   (c =? 0x202F) || (c =? 0x205F) || (c =? 0x3000) || (c =? 0xFEFF))%N.

Definition is_line_terminator (c : code_unit) : bool :=
  ((c =? 0x0A) || (c =? 0x0D) || (c =? 0x2028) || (c =? 0x2029))%N.

Definition is_trim_space (c : code_unit) : bool :=
  is_white_space c || is_line_terminator c.

(** [String.prototype.trimStart]. *)
Fixpoint trimStart (s : jsstring) : jsstring :=
  match s with
  | c :: s' => if is_trim_space c then trimStart s' else s
  | [] => []
  end.

(** [String.prototype.trimEnd]. *)
Definition trimEnd (s : jsstring) : jsstring :=
  rev (trimStart (rev s)).

(** [String.prototype.trim]. *)
Definition trim (s : jsstring) : jsstring := trimEnd (trimStart s).

(** ToBoolean on a string: only the empty string is falsy. *)
Definition truthy (s : jsstring) : bool :=
  match s with [] => false | _ :: _ => true end.

End JsString.

Import JsString.

(** ** [ui/src/lib/types.ts]: data contracts *)

Module Types.

(** A JS [number] is an IEEE-754 double. *)
Definition number := float.

(** A string-literal type such as ['progress']: its only inhabitant is
    the literal itself. *)
Inductive Lit (s : string) : Set := TheLit.
Arguments TheLit {s}.

Definition lit_value {s : string} (_ : Lit s) : string := s.

Record ProjectStats := {
  passing : number;
  in_progress : number;
  total : number;
  percentage : number;
}.

Inductive AgentStatus := stopped | running | paused | crashed.

(** The string an [AgentStatus] value is at run time; it is the
    property key used to index [statusConfig]. *)
Definition AgentStatus_key (s : AgentStatus) : string :=
  match s with
  | stopped => "stopped"
  | running => "running"
  | paused => "paused"
  | crashed => "crashed"
  end.

Record WSProgressMessage := {
  wsp_type : Lit "progress";
  wsp_passing : number;
  wsp_in_progress : number;
  wsp_total : number;
  wsp_percentage : number;
}.

(** *** Spec chat types *)

Record SpecQuestionOption := {
  label : jsstring;
  description : jsstring;
}.

Record SpecQuestion := {
  question : jsstring;
  header : jsstring;
  options : list SpecQuestionOption;
  multiSelect : bool;
}.

Record SpecChatTextMessage := {
  text_type : Lit "text";
  text_content : jsstring;
}.

Record SpecChatQuestionMessage := {
  question_type : Lit "question";
  question_questions : list SpecQuestion;
  question_tool_id : option jsstring;
}.

Record SpecChatCompleteMessage := {
  spec_complete_type : Lit "spec_complete";
  spec_complete_path : jsstring;
}.

Record SpecChatFileWrittenMessage := {
  file_written_type : Lit "file_written";
  file_written_path : jsstring;
}.

Record SpecChatSessionCompleteMessage := {
  complete_type : Lit "complete";
}.

Record SpecChatErrorMessage := {
  error_type : Lit "error";
  error_content : jsstring;
}.

Record SpecChatPongMessage := {
  pong_type : Lit "pong";
}.

Record SpecChatResponseDoneMessage := {
  response_done_type : Lit "response_done";
}.

(** The union type: one injection per member, in declaration order. *)
Inductive SpecChatServerMessage :=
| OfText (m : SpecChatTextMessage)
| OfQuestion (m : SpecChatQuestionMessage)
| OfComplete (m : SpecChatCompleteMessage)
| OfFileWritten (m : SpecChatFileWrittenMessage)
| OfSessionComplete (m : SpecChatSessionCompleteMessage)
| OfError (m : SpecChatErrorMessage)
| OfPong (m : SpecChatPongMessage)
| OfResponseDone (m : SpecChatResponseDoneMessage).

(** [msg.type]: the discriminant property read off a union value. *)
Definition msg_type (msg : SpecChatServerMessage) : string :=
  match msg with
  | OfText m => lit_value (text_type m)
  | OfQuestion m => lit_value (question_type m)
  | OfComplete m => lit_value (spec_complete_type m)
  | OfFileWritten m => lit_value (file_written_type m)
  | OfSessionComplete m => lit_value (complete_type m)
  | OfError m => lit_value (error_type m)
  | OfPong m => lit_value (pong_type m)
  | OfResponseDone m => lit_value (response_done_type m)
  end.

Inductive ChatRole := user | assistant | system.

(** UI chat message for display; [timestamp] is the [Date]'s time
    value. *)
Record ChatMessage := {
  id : jsstring;
  role : ChatRole;
  content : jsstring;
  timestamp : number;
  questions : option (list SpecQuestion);
  isStreaming : option bool;
}.

(** Dropping the discriminant of a progress message, and putting it
    back on a stats value. *)
Definition strip_type (m : WSProgressMessage) : ProjectStats :=
  {| passing := wsp_passing m;
     in_progress := wsp_in_progress m;
     total := wsp_total m;
     percentage := wsp_percentage m |}.

Definition with_type (s : ProjectStats) : WSProgressMessage :=
  {| wsp_type := TheLit;
     wsp_passing := passing s;
     wsp_in_progress := in_progress s;
     wsp_total := total s;
     wsp_percentage := percentage s |}.

(** The discriminants of the members of [SpecChatServerMessage], in
    declaration order, and the position of the member a value belongs
    to. *)
Definition SpecChatServerMessage_types : list string :=
  ["text"; "question"; "spec_complete"; "file_written";
   "complete"; "error"; "pong"; "response_done"].

Definition member_index (msg : SpecChatServerMessage) : nat :=
  match msg with
  | OfText _ => 0
  | OfQuestion _ => 1
  | OfComplete _ => 2
  | OfFileWritten _ => 3
  | OfSessionComplete _ => 4
  | OfError _ => 5
  | OfPong _ => 6
  | OfResponseDone _ => 7
  end.

(** *** WebSocket message types *)

Inductive WSMessageType :=
| type_progress
| type_feature_update
| type_log
| type_agent_status
| type_pong.

(** The string a [WSMessageType] value is at run time. *)
Definition WSMessageType_key (t : WSMessageType) : string :=
  match t with
  | type_progress => "progress"
  | type_feature_update => "feature_update"
  | type_log => "log"
  | type_agent_status => "agent_status"
  | type_pong => "pong"
  end.

Record WSFeatureUpdateMessage := {
  wsf_type : Lit "feature_update";
  wsf_feature_id : number;
  wsf_passes : bool;
}.

Record WSLogMessage := {
  wsl_type : Lit "log";
  wsl_line : jsstring;
  wsl_timestamp : jsstring;
}.

Record WSAgentStatusMessage := {
  wsa_type : Lit "agent_status";
  wsa_status : AgentStatus;
}.

Record WSPongMessage := {
  wspong_type : Lit "pong";
}.

Inductive WSMessage :=
| WSOfProgress (m : WSProgressMessage)
| WSOfFeatureUpdate (m : WSFeatureUpdateMessage)
| WSOfLog (m : WSLogMessage)
| WSOfAgentStatus (m : WSAgentStatusMessage)
| WSOfPong (m : WSPongMessage).

(** [msg.type] of a [WSMessage]. *)
Definition ws_type (msg : WSMessage) : string :=
  match msg with
  | WSOfProgress m => lit_value (wsp_type m)
  | WSOfFeatureUpdate m => lit_value (wsf_type m)
  | WSOfLog m => lit_value (wsl_type m)
  | WSOfAgentStatus m => lit_value (wsa_type m)
  | WSOfPong m => lit_value (wspong_type m)
  end.

End Types.

(** ** Virtual DOM

    What a component returns: host elements with the attributes that
    matter for behaviour (class names and inline styles are left out),
    literal JSX text, interpolated string expressions and child
    components whose implementation lives elsewhere.  A conditional
    child [{c && <X/>}] contributes [[X]] when [c] is truthy and [[]]
    otherwise. *)

Module VDom.

Record KeyboardEvent := {
  key : string;
  shiftKey : bool;
}.

Section Tree.
Context {Call Comp : Type}.

Record Attrs := {
  title : option string;
  value : option jsstring;
  disabled : bool;
  onClick : option (list Call);
  onChange : option (jsstring -> list Call);
  onKeyDown : option (KeyboardEvent -> list Call);
}.

(** An element without behavioural attributes. *)
Definition plain : Attrs :=
  {| title := None; value := None; disabled := false;
     onClick := None; onChange := None; onKeyDown := None |}.

Inductive VNode :=
| VElem (tag : string) (attrs : Attrs) (children : list VNode)
| VText (s : string)
| VExpr (s : jsstring)
| VComp (c : Comp).

(** All host elements of a tree, in document order. *)
Fixpoint elements (n : VNode) : list (string * Attrs * list VNode)%type :=
  match n with
  | VElem tag a cs =>
      (tag, a, cs) ::
      (fix go (l : list VNode) :=
         match l with
         | [] => []
         | c :: l' => elements c ++ go l'
         end) cs
  | _ => []
  end.

Definition Element : Type := string * Attrs * list VNode.

Definition attrs_of (e : Element) : Attrs := snd (fst e).

Definition has_tag (t : string) (e : Element) : bool :=
  String.eqb (fst (fst e)) t.

(** The host elements of a tree that satisfy [P]. *)
Definition select (P : Element -> bool) (n : VNode) : list Element :=
  List.filter P (elements n).

Definition by_tag (t : string) (n : VNode) : list Attrs :=
  map attrs_of (select (has_tag t) n).

Definition is_text (l : string) (n : VNode) : bool :=
  match n with
  | VText s => String.eqb s l
  | _ => false
  end.

(** Elements of tag [t] with a direct child satisfying [child]; in
    particular buttons and spans carrying the literal text [l]. *)
Definition is_element_with (t : string) (child : VNode -> bool) (e : Element)
  : bool :=
  has_tag t e && existsb child (snd e).

Definition is_button_with (child : VNode -> bool) (e : Element) : bool :=
  is_element_with "button" child e.

Definition buttons_with (child : VNode -> bool) (n : VNode) : list Attrs :=
  map attrs_of (select (is_button_with child) n).

Definition buttons_labelled (l : string) (n : VNode) : list Attrs :=
  buttons_with (is_text l) n.

Definition spans_labelled (l : string) (n : VNode) : list Element :=
  select (is_element_with "span" (is_text l)) n.

(** Form controls: the host elements a user can operate. *)
Definition is_control (e : Element) : bool :=
  has_tag "button" e || has_tag "select" e || has_tag "input" e
  || has_tag "textarea" e.

Definition controls (n : VNode) : list (string * Attrs) :=
  map fst (select is_control n).

Definition has_handlers (a : Attrs) : bool :=
  match onClick a, onChange a, onKeyDown a with
  | None, None, None => false
  | _, _, _ => true
  end.

(** Elements that are form controls or carry an event handler. *)
Definition is_interactive (e : Element) : bool :=
  is_control e || has_handlers (attrs_of e).

(** User interaction with one element.  The browser dispatches no
    click, change or keyboard event on a disabled form control. *)
Inductive UIEvent :=
| Click
| Change (v : jsstring)
| KeyDown (e : KeyboardEvent).

Definition fire (a : Attrs) (ev : UIEvent) : list Call :=
  if disabled a then []
  else match ev with
       | Click => default [] (onClick a)
       | Change v => from_option (fun f => f v) [] (onChange a)
       | KeyDown e => from_option (fun f => f e) [] (onKeyDown a)
       end.

(** All child components of a tree, in document order. *)
Fixpoint components (n : VNode) : list Comp :=
  match n with
  | VElem _ _ cs =>
      (fix go (l : list VNode) :=
         match l with
         | [] => []
         | c :: l' => components c ++ go l'
         end) cs
  | VComp c => [c]
  | _ => []
  end.

(** The child components of a tree that [f] recognises. *)
Definition pick {A : Type} (f : Comp -> option A) (n : VNode) : list A :=
  flat_map (fun c => match f c with Some x => [x] | None => [] end)
           (components n).

Definition has_title (t : string) (e : Element) : bool :=
  match title (attrs_of e) with
  | Some s => String.eqb s t
  | None => false
  end.

Definition titled (t : string) (n : VNode) : list Attrs :=
  map attrs_of (select (has_title t) n).

Definition is_expr (n : VNode) : bool :=
  match n with
  | VExpr _ => true
  | _ => false
  end.

End Tree.

Arguments Attrs : clear implicits.
Arguments VNode : clear implicits.
Arguments UIEvent : clear implicits.

End VDom.

(** ** [AgentControl] and [StatusIndicator] *)

Module AgentControl.
Import Types VDom.

(** Icons from the icon library; they carry no behaviour. *)
Inductive Comp := Icon (name : string).

Inductive Mutation := startAgent | stopAgent | pauseAgent | resumeAgent.

Record StartPayload := {
  payload_yoloMode : bool;
  payload_model : jsstring;
}.

(** What the handlers of this component can do: call [mutate] on one
    of the four mutation hooks, with or without an argument, or set
    one of the two local state cells. *)
Inductive Call :=
| mutate (m : Mutation) (arg : option StartPayload)
| setYoloEnabled (b : bool)
| setModel (m : jsstring).

Record AgentControlProps := {
  projectName : jsstring;
  status : AgentStatus;
  yoloMode : option bool;
  currentModel : option jsstring;
}.

(** The [isPending] flag of each mutation hook. *)
Record Mutations := {
  startAgent_isPending : bool;
  stopAgent_isPending : bool;
  pauseAgent_isPending : bool;
  resumeAgent_isPending : bool;
}.

(** The two [useState] cells. *)
Record Local := {
  yoloEnabled : bool;
  model : jsstring;
}.

Definition initial : Local :=
  {| yoloEnabled := false; model := js "claude-3-opus-20240229" |}.

Definition isLoading (h : Mutations) : bool :=
  startAgent_isPending h || stopAgent_isPending h ||
  pauseAgent_isPending h || resumeAgent_isPending h.

Definition handleStart (l : Local) : list Call :=
  [mutate startAgent
     (Some {| payload_yoloMode := yoloEnabled l; payload_model := model l |})].
Definition handleStop : list Call := [mutate stopAgent None].
Definition handlePause : list Call := [mutate pauseAgent None].
Definition handleResume : list Call := [mutate resumeAgent None].

Definition models : list jsstring :=
  [js "claude-3-opus-20240229";
   js "claude-3-sonnet-20240229";
   js "claude-3-haiku-20240307";
   js "gpt-4-turbo-preview";
   js "gpt-3.5-turbo";
   js "gemini-1.5-pro";
   js "gemini-1.5-flash";
   js "gemini-1.5-pro-latest"].

Definition isStopped (s : AgentStatus) : bool :=
  match s with
  | stopped | crashed => true
  | _ => false
  end.

(** *** [StatusIndicator] *)

Record StatusConfig := {
  color : string;
  label : string;
  pulse : bool;
}.

(** The object literal [statusConfig], keyed by property name. *)
Definition statusConfig : gmap string StatusConfig :=
  <["stopped" := {| color := "var(--color-neo-text-secondary)";
                    label := "Stopped"; pulse := false |}]>
  (<["running" := {| color := "var(--color-neo-done)";
                     label := "Running"; pulse := true |}]>
  (<["paused" := {| color := "var(--color-neo-pending)";
                    label := "Paused"; pulse := false |}]>
  (<["crashed" := {| color := "var(--color-neo-danger)";
                     label := "Crashed"; pulse := true |}]> ∅))).

(** Property access [statusConfig[k]] on an arbitrary run-time key;
    [None] is [undefined]. *)
Definition statusConfig_get (k : string) : option StatusConfig :=
  statusConfig !! k.

(** [StatusIndicator]: reading [config.pulse] off an [undefined]
    [config] throws, which is the [None] result. *)
Definition StatusIndicator (s : AgentStatus) : option (VNode Call Comp) :=
  match statusConfig_get (AgentStatus_key s) with
  | None => None
  | Some config =>
      Some (VElem "div" plain
              [VElem "span" plain [];
               VElem "span" plain [VText (label config)]])
  end.

(** *** The control buttons *)

Definition model_selector (l : Local) (st : AgentStatus) : Attrs Call :=
  {| title := None;
     value := Some (model l);
     disabled := negb (isStopped st);
     onClick := None;
     onChange := Some (fun v => [setModel v]);
     onKeyDown := None |}.

Definition yolo_toggle (l : Local) : Attrs Call :=
  {| title := Some "YOLO Mode: Skip testing for rapid prototyping";
     value := None;
     disabled := false;
     onClick := Some [setYoloEnabled (negb (yoloEnabled l))];
     onChange := None;
     onKeyDown := None |}.

Definition action_button (t : string) (h : Mutations) (calls : list Call)
  : Attrs Call :=
  {| title := Some t;
     value := None;
     disabled := isLoading h;
     onClick := Some calls;
     onChange := None;
     onKeyDown := None |}.

Definition start_button (h : Mutations) (l : Local) : Attrs Call :=
  action_button
    (if yoloEnabled l then "Start Agent (YOLO Mode)" else "Start Agent")
    h (handleStart l).
Definition pause_button (h : Mutations) : Attrs Call :=
  action_button "Pause Agent" h handlePause.
Definition stop_button (h : Mutations) : Attrs Call :=
  action_button "Stop Agent" h handleStop.
Definition resume_button (h : Mutations) : Attrs Call :=
  action_button "Resume Agent" h handleResume.

Definition spinner_or (h : Mutations) (icon : string) : VNode Call Comp :=
  if isLoading h then VComp (Icon "Loader2") else VComp (Icon icon).

Definition option_node (m : jsstring) : VNode Call Comp :=
  VElem "option" {| title := None; value := Some m; disabled := false;
                    onClick := None; onChange := None; onKeyDown := None |}
        [VExpr m].

Definition control_buttons (p : AgentControlProps) (h : Mutations) (l : Local)
  : list (VNode Call Comp) :=
  if isStopped (status p) then
    [VElem "select" (model_selector l (status p)) (map option_node models);
     VElem "button" (yolo_toggle l) [VComp (Icon "Zap")];
     VElem "button" (start_button h l) [spinner_or h "Play"]]
  else match status p with
       | running =>
           [VElem "button" (pause_button h) [spinner_or h "Pause"];
            VElem "button" (stop_button h) [VComp (Icon "Square")]]
       | paused =>
           [VElem "button" (resume_button h) [spinner_or h "Play"];
            VElem "button" (stop_button h) [VComp (Icon "Square")]]
       | _ => []
       end.

Definition is_active (s : AgentStatus) : bool :=
  match s with
  | running | paused => true
  | _ => false
  end.

Definition yolo_indicator (p : AgentControlProps) : list (VNode Call Comp) :=
  if is_active (status p) && default false (yoloMode p) then
    [VElem "div" plain
       [VComp (Icon "Zap"); VElem "span" plain [VText "YOLO"]]]
  else [].

Definition model_indicator (p : AgentControlProps) : list (VNode Call Comp) :=
  match currentModel p with
  | Some m =>
      if is_active (status p) && truthy m then
        [VElem "div" plain [VElem "span" plain [VExpr m]]]
      else []
  | None => []
  end.

(** The component body. *)
Definition AgentControl (p : AgentControlProps) (h : Mutations) (l : Local)
  : option (VNode Call Comp) :=
  match StatusIndicator (status p) with
  | None => None
  | Some indicator =>
      Some (VElem "div" plain
              ([indicator] ++ yolo_indicator p ++ model_indicator p ++
               [VElem "div" plain (control_buttons p h l)]))
  end.

(** Local state after a handler's calls have been processed. *)
Definition apply_call (l : Local) (c : Call) : Local :=
  match c with
  | mutate _ _ => l
  | setYoloEnabled b => {| yoloEnabled := b; model := model l |}
  | setModel m => {| yoloEnabled := yoloEnabled l; model := m |}
  end.

Definition apply_calls (l : Local) (cs : list Call) : Local :=
  fold_left apply_call cs l.

End AgentControl.

(** ** [SpecCreationChat] *)

Module SpecCreationChat.
Import Types VDom.

(** [Record<string, string | string[]>] *)
Definition Answers : Type := gmap jsstring (jsstring + list jsstring).

(** Everything the handlers and effects of this component can do: call
    one of the functions returned by [useSpecChat], one of the two
    callback props, a local state setter, or a DOM method. *)
Inductive Call :=
| start
| disconnect
| sendMessage (content : jsstring)
| sendAnswer (answers : Answers)
| setInput (v : jsstring)
| setError (e : option jsstring)
| onComplete (specPath : jsstring)
| onCancel
| preventDefault
| scrollIntoView
| focus.

(** Child components imported from sibling modules. *)
Inductive Comp :=
| Icon (name : string)
| ChatMessageC (message : ChatMessage)
| QuestionOptions (questions : list SpecQuestion)
                  (onSubmit : Answers -> list Call) (disabled : bool)
| TypingIndicator.

Definition is_icon (name : string) (n : VNode Call Comp) : bool :=
  match n with
  | VComp (Icon i) => String.eqb i name
  | _ => false
  end.

(** The props; the two callback props are the calls [onComplete] and
    [onCancel]. *)
Record SpecCreationChatProps := {
  projectName : jsstring;
}.

(** The state returned by [useSpecChat].  The hook's declarations are
    not part of this development: [connectionStatus] is taken to be
    any string, and is only ever compared with literals;
    [currentQuestions] is an array or [null]. *)
Record SpecChat := {
  messages : list ChatMessage;
  isLoading : bool;
  isComplete : bool;
  connectionStatus : string;
  currentQuestions : option (list SpecQuestion);
}.

(** The two [useState] cells. *)
Record Local := {
  input : jsstring;
  error : option jsstring;
}.

Definition initial : Local := {| input := []; error := None |}.

(** ToBoolean of an array-or-null: every array is truthy, also the
    empty one. *)
Definition questions_truthy (h : SpecChat) : bool :=
  match currentQuestions h with
  | Some _ => true
  | None => false
  end.

(** The [onError] callback handed to the hook. *)
Definition onError (err : jsstring) : list Call := [setError (Some err)].

Definition handleSendMessage (h : SpecChat) (l : Local) : list Call :=
  let trimmed := trim (input l) in
  if negb (truthy trimmed) || isLoading h then []
  else [sendMessage trimmed; setInput []].

Definition handleKeyDown (h : SpecChat) (l : Local) (e : KeyboardEvent)
  : list Call :=
  if String.eqb (key e) "Enter" && negb (shiftKey e) then
    preventDefault :: handleSendMessage h l
  else [].

Definition handleAnswerSubmit (answers : Answers) : list Call :=
  [sendAnswer answers].

Definition ConnectionIndicator (h : SpecChat) : VNode Call Comp :=
  if String.eqb (connectionStatus h) "connected" then
    VElem "span" plain [VComp (Icon "Wifi"); VText "Connected"]
  else if String.eqb (connectionStatus h) "connecting" then
    VElem "span" plain [VComp (Icon "Wifi"); VText "Connecting..."]
  else if String.eqb (connectionStatus h) "error" then
    VElem "span" plain [VComp (Icon "WifiOff"); VText "Error"]
  else
    VElem "span" plain [VComp (Icon "WifiOff"); VText "Disconnected"].

Definition click (t : option string) (calls : list Call) : Attrs Call :=
  {| title := t; value := None; disabled := false;
     onClick := Some calls; onChange := None; onKeyDown := None |}.

Definition cancel_button : Attrs Call := click (Some "Cancel") [onCancel].
Definition dismiss_button : Attrs Call := click None [setError None].
Definition retry_button : Attrs Call := click None [start].
Definition continue_button : Attrs Call := click None [onComplete []].

Definition input_disabled (h : SpecChat) : bool :=
  (isLoading h && negb (questions_truthy h))
  || negb (String.eqb (connectionStatus h) "connected").

Definition text_input (h : SpecChat) (l : Local) : Attrs Call :=
  {| title := None;
     value := Some (input l);
     disabled := input_disabled h;
     onClick := None;
     onChange := Some (fun v => [setInput v]);
     onKeyDown := Some (handleKeyDown h l) |}.

Definition send_button (h : SpecChat) (l : Local) : Attrs Call :=
  {| title := None;
     value := None;
     disabled := negb (truthy (trim (input l)))
                 || (isLoading h && negb (questions_truthy h))
                 || negb (String.eqb (connectionStatus h) "connected");
     onClick := Some (handleSendMessage h l);
     onChange := None;
     onKeyDown := None |}.

Definition header_bar (p : SpecCreationChatProps) (h : SpecChat)
  : VNode Call Comp :=
  VElem "div" plain
    [VElem "div" plain
       [VElem "h2" plain [VText "Create Spec: "; VExpr (projectName p)];
        ConnectionIndicator h];
     VElem "div" plain
       ((if isComplete h then
           [VElem "span" plain [VComp (Icon "CheckCircle2"); VText "Complete"]]
         else []) ++
        [VElem "button" cancel_button [VComp (Icon "X")]])].

Definition error_banner (l : Local) : list (VNode Call Comp) :=
  match error l with
  | Some e =>
      if truthy e then
        [VElem "div" plain
           [VComp (Icon "AlertCircle");
            VElem "span" plain [VExpr e];
            VElem "button" dismiss_button [VComp (Icon "X")]]]
      else []
  | None => []
  end.

Definition empty_state (h : SpecChat) : list (VNode Call Comp) :=
  if (length (messages h) =? 0) && negb (isLoading h) then
    [VElem "div" plain
       [VElem "div" plain
          ([VElem "h3" plain [VText "Starting Spec Creation"];
            VElem "p" plain
              [VText "Connecting to Claude to help you create your app specification..."]]
           ++
           (if String.eqb (connectionStatus h) "error" then
              [VElem "button" retry_button
                 [VComp (Icon "RotateCcw"); VText "Retry Connection"]]
            else []))]]
  else [].

Definition chat_message (m : ChatMessage) : VNode Call Comp :=
  VComp (ChatMessageC m).

Definition structured_questions (h : SpecChat) : list (VNode Call Comp) :=
  match currentQuestions h with
  | Some qs =>
      if 0 <? length qs then
        [VComp (QuestionOptions qs handleAnswerSubmit (isLoading h))]
      else []
  | None => []
  end.

Definition typing_indicator (h : SpecChat) : list (VNode Call Comp) :=
  if isLoading h && negb (questions_truthy h) then [VComp TypingIndicator]
  else [].

Definition messages_area (h : SpecChat) : VNode Call Comp :=
  VElem "div" plain
    (empty_state h ++ map chat_message (messages h) ++
     structured_questions h ++ typing_indicator h ++
     [VElem "div" plain []]).

Definition input_area (h : SpecChat) (l : Local) : list (VNode Call Comp) :=
  if negb (isComplete h) then
    [VElem "div" plain
       [VElem "div" plain
          [VElem "input" (text_input h l) [];
           VElem "button" (send_button h l) [VComp (Icon "Send")]];
        VElem "p" plain
          [VText "Press Enter to send. Claude will guide you through creating your app specification."]]]
  else [].

Definition success_text : string := "Specification created successfully!".

Definition completion_footer (h : SpecChat) : list (VNode Call Comp) :=
  if isComplete h then
    [VElem "div" plain
       [VElem "div" plain
          [VElem "div" plain
             [VComp (Icon "CheckCircle2");
              VElem "span" plain [VText success_text]];
           VElem "button" continue_button [VText "Continue to Project"]]]]
  else [].

(** The component body. *)
Definition SpecCreationChat (p : SpecCreationChatProps) (h : SpecChat) (l : Local)
  : VNode Call Comp :=
  VElem "div" plain
    ([header_bar p h] ++ error_banner l ++ [messages_area h] ++
     input_area h l ++ completion_footer h).

(** Local state after a handler's calls have been processed. *)
Definition apply_call (l : Local) (c : Call) : Local :=
  match c with
  | setInput v => {| input := v; error := error l |}
  | setError e => {| input := input l; error := e |}
  | _ => l
  end.

Definition apply_calls (l : Local) (cs : list Call) : Local :=
  fold_left apply_call cs l.

Definition is_start (c : Call) : bool :=
  match c with start => true | _ => false end.
Definition is_disconnect (c : Call) : bool :=
  match c with disconnect => true | _ => false end.
Definition is_sendMessage (c : Call) : bool :=
  match c with sendMessage _ => true | _ => false end.

(** *** Effects

    [useEffect(body, deps)]: the body runs after the first commit and
    after every later commit in which one of [deps] changed identity;
    with no dependency array it runs after every commit.  The cleanup
    returned by the body runs before the body runs again and when the
    component unmounts. *)

Inductive Dep := dep_messages | dep_currentQuestions | dep_isLoading.

Record Effect := {
  deps : option (list Dep);
  body : list Call;
  cleanup : list Call;
}.

(** [inputRef.current] is set exactly when the [<input>] is part of the
    committed tree. *)
Definition inputRef_current (p : SpecCreationChatProps) (h : SpecChat) (l : Local)
  : bool :=
  match by_tag "input" (SpecCreationChat p h l) with
  | [] => false
  | _ :: _ => true
  end.

Definition mount_effect : Effect :=
  {| deps := Some []; body := [start]; cleanup := [disconnect] |}.

Definition scroll_effect : Effect :=
  {| deps := Some [dep_messages; dep_currentQuestions; dep_isLoading];
     body := [scrollIntoView];
     cleanup := [] |}.

Definition focus_effect (p : SpecCreationChatProps) (h : SpecChat) (l : Local)
  : Effect :=
  {| deps := Some [dep_isLoading; dep_currentQuestions];
     body := if negb (isLoading h) && negb (questions_truthy h)
                && inputRef_current p h l
             then [focus] else [];
     cleanup := [] |}.

Definition effects (p : SpecCreationChatProps) (h : SpecChat) (l : Local)
  : list Effect :=
  [mount_effect; scroll_effect; focus_effect p h l].

Inductive Commit :=
| Mount
| Update (changed : Dep -> bool)
| Unmount.

Definition reruns (changed : Dep -> bool) (e : Effect) : bool :=
  match deps e with
  | None => true
  | Some ds => existsb changed ds
  end.

(** The calls of one commit, given the effects of the render being
    committed: first the cleanups of the effects that run again, then
    their bodies.  No cleanup of this component depends on the render
    that created it, so the cleanups are read off the same list. *)
Definition commit_calls (c : Commit) (es : list Effect) : list Call :=
  match c with
  | Mount => flat_map body es
  | Update changed =>
      flat_map cleanup (List.filter (reruns changed) es) ++
      flat_map body (List.filter (reruns changed) es)
  | Unmount => flat_map cleanup es
  end.

(** One render of the component as seen by the effect schedule. *)
Record Render := {
  props : SpecCreationChatProps;
  hook : SpecChat;
  local : Local;
}.

Definition render_effects (r : Render) : list Effect :=
  effects (props r) (hook r) (local r).

(** Effect calls from mounting through a sequence of re-renders. *)
Definition mounted_calls (first : Render) (updates : list ((Dep -> bool) * Render))
  : list Call :=
  commit_calls Mount (render_effects first) ++
  flat_map (fun u => commit_calls (Update (fst u)) (render_effects (snd u)))
           updates.

Definition unmount_calls (last : Render) : list Call :=
  commit_calls Unmount (render_effects last).

(** *** Queries on the rendered chat *)

Definition is_preventDefault (c : Call) : bool :=
  match c with preventDefault => true | _ => false end.
Definition is_focus (c : Call) : bool :=
  match c with focus => true | _ => false end.
Definition is_scrollIntoView (c : Call) : bool :=
  match c with scrollIntoView => true | _ => false end.

Definition question_form (c : Comp)
  : option (list SpecQuestion * (Answers -> list Call) * bool) :=
  match c with
  | QuestionOptions qs f d => Some (qs, f, d)
  | _ => None
  end.

Definition typing_dots (c : Comp) : option unit :=
  match c with
  | TypingIndicator => Some tt
  | _ => None
  end.

Definition transcript_entry (c : Comp) : option ChatMessage :=
  match c with
  | ChatMessageC m => Some m
  | _ => None
  end.

Definition is_wifi_icon (n : VNode Call Comp) : bool :=
  is_icon "Wifi" n || is_icon "WifiOff" n.

(** The Enter key without modifiers. *)
Definition enter : KeyboardEvent := {| key := "Enter"; shiftKey := false |}.

(** *** Sample sessions *)

Definition connecting : SpecChat :=
  {| messages := []; isLoading := false; isComplete := false;
     connectionStatus := "connecting"; currentQuestions := None |}.

Definition failed : SpecChat :=
  {| messages := []; isLoading := false; isComplete := false;
     connectionStatus := "error"; currentQuestions := None |}.

Definition chatting : SpecChat :=
  {| messages := []; isLoading := false; isComplete := false;
     connectionStatus := "connected"; currentQuestions := None |}.

Definition finished : SpecChat :=
  {| messages := []; isLoading := false; isComplete := true;
     connectionStatus := "connected"; currentQuestions := None |}.

Definition demo : SpecCreationChatProps := {| projectName := js "demo" |}.

Definition typed (s : string) : Local := {| input := js s; error := None |}.

End SpecCreationChat.

(** * Properties *)

(** ** Trimming *)

Module JsStringFacts.
Import JsString.

Lemma trimStart_split (s : jsstring) :
  exists pre, s = pre ++ trimStart s /\ forallb is_trim_space pre = true.
Proof.
  induction s as [|c s [pre [Hs Hpre]]]; [now exists []|].
  simpl. destruct (is_trim_space c) eqn:Hc.
  - exists (c :: pre). simpl. rewrite Hc, Hpre. split; [congruence|reflexivity].
  - now exists [].
Qed.

Lemma trimStart_head (s : jsstring) c r :
  trimStart s = c :: r -> is_trim_space c = false.
Proof.
  induction s as [|d s IH]; simpl; [discriminate|].
  destruct (is_trim_space d) eqn:Hd; [exact IH|].
  intros [= <- _]. exact Hd.
Qed.

Lemma forallb_rev {A} (f : A -> bool) (xs : list A) :
  forallb f xs = true -> forallb f (rev xs) = true.
Proof.
  rewrite !forallb_forall. intros H x Hx. apply H. now apply in_rev.
Qed.

Lemma trimEnd_split (s : jsstring) :
  exists post, s = trimEnd s ++ post /\ forallb is_trim_space post = true.
Proof.
  unfold trimEnd.
  destruct (trimStart_split (rev s)) as [pre [Hs Hpre]].
  exists (rev pre). split.
  - rewrite <- rev_app_distr, <- Hs. now rewrite rev_involutive.
  - now apply forallb_rev.
Qed.

(** [trim] removes a run of white space at either end and nothing
    else. *)
Lemma trim_split (s : jsstring) :
  exists pre post,
    s = pre ++ trim s ++ post /\
    forallb is_trim_space pre = true /\
    forallb is_trim_space post = true.
Proof.
  destruct (trimStart_split s) as [pre [Hs Hpre]].
  destruct (trimEnd_split (trimStart s)) as [post [Ht Hpost]].
  exists pre, post. unfold trim. now rewrite <- Ht.
Qed.

Lemma trimEnd_last (s : jsstring) r c :
  trimEnd s = r ++ [c] -> is_trim_space c = false.
Proof.
  unfold trimEnd. intros H.
  apply (f_equal (@rev _)) in H.
  rewrite rev_involutive, rev_app_distr in H. simpl in H.
  eapply trimStart_head, H.
Qed.

Lemma trimEnd_head (s : jsstring) c r :
  s = c :: r -> is_trim_space c = false ->
  exists r', trimEnd s = c :: r'.
Proof.
  intros -> Hc.
  destruct (trimEnd_split (c :: r)) as [post [Hs Hpost]].
  destruct (trimEnd (c :: r)) as [|d r'] eqn:Ht.
  - simpl in Hs. subst post. simpl in Hpost. now rewrite Hc in Hpost.
  - simpl in Hs. injection Hs as -> _. now exists r'.
Qed.

(** The trimmed text neither starts nor ends with white space. *)
Lemma trim_head (s : jsstring) c r :
  trim s = c :: r -> is_trim_space c = false.
Proof.
  unfold trim. intros H.
  destruct (trimStart s) as [|d t] eqn:Ht; [discriminate H|].
  pose proof (trimStart_head _ _ _ Ht) as Hd.
  destruct (trimEnd_head (d :: t) d t eq_refl Hd) as [r' Hr'].
  rewrite Hr' in H. now injection H as <- _.
Qed.

Lemma trim_last (s : jsstring) r c :
  trim s = r ++ [c] -> is_trim_space c = false.
Proof. unfold trim. apply trimEnd_last. Qed.

Lemma truthy_nonempty (s : jsstring) : truthy s = true <-> s <> [].
Proof. destruct s; simpl; split; congruence. Qed.

End JsStringFacts.

(** ** Virtual DOM traversal *)

Module VDomFacts.
Import VDom.

Section Tree.
Context {Call Comp : Type}.
Implicit Types (n : VNode Call Comp) (cs : list (VNode Call Comp)).
Implicit Types (e : Element (Call:=Call) (Comp:=Comp)).
Implicit Types (P Q : Element (Call:=Call) (Comp:=Comp) -> bool).

Lemma elements_VElem tag a cs :
  elements (VElem tag a cs) = (tag, a, cs) :: flat_map elements cs.
Proof. reflexivity. Qed.

Lemma filter_flat_map {A B} (f : A -> list B) (p : B -> bool) (xs : list A) :
  List.filter p (flat_map f xs) = flat_map (fun x => List.filter p (f x)) xs.
Proof.
  induction xs as [|x xs IH]; simpl; [reflexivity|].
  now rewrite List.filter_app, IH.
Qed.

Lemma select_VElem P tag a cs :
  select P (VElem tag a cs) =
  (if P (tag, a, cs) then [(tag, a, cs)] else []) ++ flat_map (select P) cs.
Proof.
  unfold select. rewrite elements_VElem. simpl List.filter.
  rewrite filter_flat_map. now destruct (P (tag, a, cs)).
Qed.

Lemma select_comps {A} P (f : A -> Comp) (xs : list A) :
  flat_map (select P) (map (fun x => VComp (Call:=Call) (f x)) xs) = [].
Proof. induction xs as [|x xs IH]; simpl; auto. Qed.

Lemma filter_filter_imp {A} (p q : A -> bool) (xs : list A) :
  (forall x, p x = true -> q x = true) ->
  List.filter p (List.filter q xs) = List.filter p xs.
Proof.
  intros Hpq. induction xs as [|x xs IH]; simpl; [reflexivity|].
  destruct (q x) eqn:Hq; simpl; rewrite IH; [reflexivity|].
  destruct (p x) eqn:Hp; [|reflexivity].
  apply Hpq in Hp. congruence.
Qed.

(** A query that only matches interactive elements can be answered
    from the interactive elements alone. *)
Lemma select_via_interactive P n :
  (forall e, P e = true -> is_interactive e = true) ->
  select P n = List.filter P (select is_interactive n).
Proof. intros HP. unfold select. now rewrite filter_filter_imp. Qed.

Lemma control_interactive e : is_control e = true -> is_interactive e = true.
Proof. unfold is_interactive. now intros ->. Qed.

Lemma has_tag_input_interactive e :
  has_tag "input" e = true -> is_interactive e = true.
Proof.
  intros H. apply control_interactive. unfold is_control.
  rewrite H. now rewrite !orb_true_r.
Qed.

Lemma button_with_interactive child e :
  is_button_with child e = true -> is_interactive e = true.
Proof.
  unfold is_button_with, is_element_with. intros [H _]%andb_true_iff.
  apply control_interactive. unfold is_control. now rewrite H.
Qed.

Lemma controls_via_interactive n :
  controls n = map fst (List.filter is_control (select is_interactive n)).
Proof.
  unfold controls. f_equal.
  apply select_via_interactive, control_interactive.
Qed.

(** An element without handlers answers no event. *)
Lemma fire_no_handlers (a : Attrs Call) ev :
  has_handlers a = false -> fire a ev = [].
Proof.
  unfold has_handlers, fire. intros H.
  destruct (disabled a); [reflexivity|].
  destruct (onClick a), (onChange a), (onKeyDown a), ev;
    try discriminate H; reflexivity.
Qed.

(** Whatever an event on the tree calls, it calls from an
    interactive element. *)
Lemma fired_from_interactive n e ev (c : Call) :
  In e (elements n) -> In c (fire (attrs_of e) ev) ->
  In e (select is_interactive n).
Proof.
  intros He Hc. unfold select. apply filter_In. split; [exact He|].
  unfold is_interactive.
  destruct (has_handlers (attrs_of e)) eqn:Hh; [apply orb_true_r|].
  rewrite (fire_no_handlers _ ev Hh) in Hc. destruct Hc.
Qed.

End Tree.

End VDomFacts.

(** ** The message contracts *)

Module ContractFacts.
Import Types.

Lemma Lit_unique {s : string} (x : Lit s) : x = TheLit.
Proof. now destruct x. Qed.

(** C1.  [SpecChatServerMessage] is a closed union over eight
    discriminants: a string is the [type] of some message exactly when
    it is one of 'text', 'question', 'spec_complete', 'file_written',
    'complete', 'error', 'pong', 'response_done'; these eight are
    pairwise distinct, and the discriminant of a message is the one
    of the single member the message belongs to. *)
Theorem server_message_union_closed :
  (forall s : string,
      (exists msg, msg_type msg = s) <-> In s SpecChatServerMessage_types) /\
  NoDup SpecChatServerMessage_types /\
  length SpecChatServerMessage_types = 8 /\
  (forall msg,
      SpecChatServerMessage_types !! member_index msg = Some (msg_type msg)) /\
  (forall m1 m2, msg_type m1 = msg_type m2 <-> member_index m1 = member_index m2).
Proof.
  split; [|split; [|split; [|split]]].
  - intros s. split.
    + intros [msg <-]. destruct msg; simpl; tauto.
    + simpl. intros H.
      repeat (destruct H as [<-|H]); try contradiction.
      * exists (OfText {| text_type := TheLit; text_content := [] |}); reflexivity.
      * exists (OfQuestion {| question_type := TheLit; question_questions := [];
                              question_tool_id := None |}); reflexivity.
      * exists (OfComplete {| spec_complete_type := TheLit;
                              spec_complete_path := [] |}); reflexivity.
      * exists (OfFileWritten {| file_written_type := TheLit;
                                 file_written_path := [] |}); reflexivity.
      * exists (OfSessionComplete {| complete_type := TheLit |}); reflexivity.
      * exists (OfError {| error_type := TheLit; error_content := [] |}); reflexivity.
      * exists (OfPong {| pong_type := TheLit |}); reflexivity.
      * exists (OfResponseDone {| response_done_type := TheLit |}); reflexivity.
  - unfold SpecChatServerMessage_types.
    repeat (apply NoDup_cons_2;
            [rewrite ?elem_of_cons, elem_of_nil; intuition discriminate|]).
    apply NoDup_nil_2.
  - reflexivity.
  - intros msg. now destruct msg.
  - intros m1 m2. destruct m1, m2; simpl; split; intros H;
      first [reflexivity | discriminate H].
Qed.

(** C6.  A progress message is a stats value plus the discriminant:
    dropping the ['progress'] tag and putting it back are mutually
    inverse, and the four numeric fields [passing], [in_progress],
    [total], [percentage] are carried over unchanged. *)
Theorem progress_message_mirrors_stats :
  (forall m : WSProgressMessage, with_type (strip_type m) = m) /\
  (forall s : ProjectStats, strip_type (with_type s) = s) /\
  (forall m : WSProgressMessage,
      lit_value (wsp_type m) = "progress" /\
      passing (strip_type m) = wsp_passing m /\
      in_progress (strip_type m) = wsp_in_progress m /\
      total (strip_type m) = wsp_total m /\
      percentage (strip_type m) = wsp_percentage m) /\
  (forall s : ProjectStats,
      wsp_passing (with_type s) = passing s /\
      wsp_in_progress (with_type s) = in_progress s /\
      wsp_total (with_type s) = total s /\
      wsp_percentage (with_type s) = percentage s).
Proof.
  repeat split.
  - destruct m as [t a b c d]. unfold with_type, strip_type; simpl.
    now rewrite (Lit_unique t).
  - now destruct s.
Qed.

End ContractFacts.

(** ** The agent control panel *)

Module AgentControlFacts.
Import Types VDom VDomFacts AgentControl.

Lemma statusConfig_lookup (s : AgentStatus) :
  statusConfig_get (AgentStatus_key s) =
  Some match s with
       | stopped => {| color := "var(--color-neo-text-secondary)";
                       label := "Stopped"; pulse := false |}
       | running => {| color := "var(--color-neo-done)";
                       label := "Running"; pulse := true |}
       | paused => {| color := "var(--color-neo-pending)";
                      label := "Paused"; pulse := false |}
       | crashed => {| color := "var(--color-neo-danger)";
                       label := "Crashed"; pulse := true |}
       end.
Proof.
  unfold statusConfig_get, statusConfig.
  destruct s; simpl; now simplify_map_eq.
Qed.

(** A key outside the status domain has no entry. *)
Example statusConfig_unknown_key : statusConfig_get "idle" = None.
Proof. unfold statusConfig_get, statusConfig. now simplify_map_eq. Qed.

Lemma StatusIndicator_total (s : AgentStatus) :
  exists indicator,
    StatusIndicator s = Some indicator /\
    select is_interactive indicator = [].
Proof.
  unfold StatusIndicator. rewrite statusConfig_lookup.
  eexists. split; [reflexivity|]. now destruct s.
Qed.

Lemma yolo_indicator_interactive p :
  flat_map (select is_interactive) (yolo_indicator p) = [].
Proof.
  unfold yolo_indicator.
  now destruct (is_active (status p) && default false (yoloMode p)).
Qed.

Lemma model_indicator_interactive p :
  flat_map (select is_interactive) (model_indicator p) = [].
Proof.
  unfold model_indicator. destruct (currentModel p) as [m|]; [|reflexivity].
  now destruct (is_active (status p) && truthy m).
Qed.

Lemma control_buttons_interactive p h l :
  flat_map (select is_interactive) (control_buttons p h l) =
  match status p with
  | stopped | crashed =>
      [("select", model_selector l (status p), map option_node models);
       ("button", yolo_toggle l, [VComp (Icon "Zap")]);
       ("button", start_button h l, [spinner_or h "Play"])]
  | running =>
      [("button", pause_button h, [spinner_or h "Pause"]);
       ("button", stop_button h, [VComp (Icon "Square")])]
  | paused =>
      [("button", resume_button h, [spinner_or h "Play"]);
       ("button", stop_button h, [VComp (Icon "Square")])]
  end.
Proof.
  unfold control_buttons, spinner_or.
  destruct (status p), (isLoading h); reflexivity.
Qed.

Lemma AgentControl_interactive p h l :
  exists tree,
    AgentControl p h l = Some tree /\
    select is_interactive tree =
    match status p with
    | stopped | crashed =>
        [("select", model_selector l (status p), map option_node models);
         ("button", yolo_toggle l, [VComp (Icon "Zap")]);
         ("button", start_button h l, [spinner_or h "Play"])]
    | running =>
        [("button", pause_button h, [spinner_or h "Pause"]);
         ("button", stop_button h, [VComp (Icon "Square")])]
    | paused =>
        [("button", resume_button h, [spinner_or h "Play"]);
         ("button", stop_button h, [VComp (Icon "Square")])]
    end.
Proof.
  unfold AgentControl.
  destruct (StatusIndicator_total (status p)) as [ind [-> Hind]].
  eexists. split; [reflexivity|].
  rewrite select_VElem. rewrite !flat_map_app.
  rewrite yolo_indicator_interactive, model_indicator_interactive.
  cbn [flat_map]. rewrite Hind, select_VElem.
  rewrite control_buttons_interactive.
  now destruct (status p).
Qed.

(** C3.  The panel always renders, and its form controls are exactly
    those of the current status, each with the action it offers.
    Stopped or crashed: the model selector (showing the selected model,
    enabled, its change sets the model), the YOLO toggle (always
    enabled, its click flips [yoloEnabled]) and the Start button (its
    click calls [startAgent.mutate] with the toggle and the model).
    Running: Pause and Stop.  Paused: Resume and Stop.  Pause, Stop and
    Resume call their mutation without an argument.  The four action
    buttons are disabled exactly while one of the four mutations is
    pending.  No other control is rendered in any status. *)
Theorem controls_by_status (p : AgentControlProps) (h : Mutations) (l : Local) :
  let pending :=
    startAgent_isPending h || stopAgent_isPending h ||
    pauseAgent_isPending h || resumeAgent_isPending h in
  let button (t : string) (calls : list Call) : Attrs Call :=
    {| title := Some t; value := None; disabled := pending;
       onClick := Some calls; onChange := None; onKeyDown := None |} in
  exists tree,
    AgentControl p h l = Some tree /\
    controls tree =
    match status p with
    | stopped | crashed =>
        [("select",
          {| title := None; value := Some (model l); disabled := false;
             onClick := None; onChange := Some (fun v => [setModel v]);
             onKeyDown := None |});
         ("button",
          {| title := Some "YOLO Mode: Skip testing for rapid prototyping";
             value := None; disabled := false;
             onClick := Some [setYoloEnabled (negb (yoloEnabled l))];
             onChange := None; onKeyDown := None |});
         ("button",
          button (if yoloEnabled l then "Start Agent (YOLO Mode)"
                  else "Start Agent")
                 [mutate startAgent
                    (Some {| payload_yoloMode := yoloEnabled l;
                             payload_model := model l |})])]
    | running =>
        [("button", button "Pause Agent" [mutate pauseAgent None]);
         ("button", button "Stop Agent" [mutate stopAgent None])]
    | paused =>
        [("button", button "Resume Agent" [mutate resumeAgent None]);
         ("button", button "Stop Agent" [mutate stopAgent None])]
    end /\
    (pending = false ->
     map (fun c => fire (snd c) Click) (controls tree) =
     match status p with
     | stopped | crashed =>
         [[];
          [setYoloEnabled (negb (yoloEnabled l))];
          [mutate startAgent
             (Some {| payload_yoloMode := yoloEnabled l;
                      payload_model := model l |})]]
     | running => [[mutate pauseAgent None]; [mutate stopAgent None]]
     | paused => [[mutate resumeAgent None]; [mutate stopAgent None]]
     end).
Proof.
  intros pending button.
  destruct (AgentControl_interactive p h l) as [tree [Ht Hi]].
  exists tree. split; [exact Ht|].
  rewrite controls_via_interactive, Hi.
  split.
  - now destruct (status p).
  - intros Hp. fold (isLoading h) in pending. subst pending.
    destruct (status p); cbn; unfold fire; cbn; now rewrite Hp.
Qed.

(** A running panel with no mutation pending offers Pause and Stop,
    and clicking them issues those two mutations. *)
Lemma controls_by_status_witness :
  let p := {| projectName := js "demo"; status := running;
              yoloMode := Some true; currentModel := None |} in
  let h := {| startAgent_isPending := false; stopAgent_isPending := false;
              pauseAgent_isPending := false; resumeAgent_isPending := false |} in
  exists tree,
    AgentControl p h initial = Some tree /\
    map (fun c => title (snd c)) (controls tree)
      = [Some "Pause Agent"; Some "Stop Agent"] /\
    map (fun c => fire (snd c) Click) (controls tree)
      = [[mutate pauseAgent None]; [mutate stopAgent None]].
Proof.
  intros p h.
  destruct (controls_by_status p h initial) as [tree [Ht [Hc Hf]]].
  exists tree. split; [exact Ht|]. split.
  - rewrite Hc. reflexivity.
  - apply Hf. reflexivity.
Defined.

(** C7.  For every [AgentStatus] the lookup [statusConfig[status]] is
    defined, so [StatusIndicator] renders without dereferencing a
    missing entry, and the entry's [pulse] flag is set exactly for
    'running' and 'crashed'. *)
Theorem status_lookup_total (s : AgentStatus) :
  exists config,
    statusConfig_get (AgentStatus_key s) = Some config /\
    is_Some (StatusIndicator s) /\
    (pulse config = true <-> s = running \/ s = crashed).
Proof.
  eexists. split; [apply statusConfig_lookup|]. split.
  - destruct (StatusIndicator_total s) as [ind [-> _]]. now eexists.
  - destruct s; simpl; split; intros H;
      first [discriminate H | reflexivity | tauto
            | destruct H as [H|H]; discriminate H].
Qed.

(** C4.  [handleStart] calls [startAgent.mutate] with the current
    [yoloEnabled] toggle and the currently selected [model];
    [handleStop], [handlePause] and [handleResume] call their
    mutations without an argument.  Consequently every [mutate] call
    that any event on the rendered panel can produce carries exactly
    that payload for [startAgent] and none for the other three. *)
Theorem start_passes_local_state (p : AgentControlProps) (h : Mutations) (l : Local) :
  handleStart l =
    [mutate startAgent
       (Some {| payload_yoloMode := yoloEnabled l; payload_model := model l |})] /\
  handleStop = [mutate stopAgent None] /\
  handlePause = [mutate pauseAgent None] /\
  handleResume = [mutate resumeAgent None] /\
  (forall tree e ev m arg,
      AgentControl p h l = Some tree ->
      In e (elements tree) ->
      In (mutate m arg) (fire (attrs_of e) ev) ->
      arg = match m with
            | startAgent =>
                Some {| payload_yoloMode := yoloEnabled l;
                        payload_model := model l |}
            | _ => None
            end).
Proof.
  repeat split.
  intros tree e ev m arg Ht He Hc.
  pose proof (fired_from_interactive _ _ _ _ He Hc) as Hi.
  destruct (AgentControl_interactive p h l) as [tree' [Ht' Hn]].
  rewrite Ht in Ht'. injection Ht' as <-. rewrite Hn in Hi. clear Hn He Ht.
  unfold fire in Hc.
  destruct (status p); simpl in Hi;
    repeat (destruct Hi as [<-|Hi]; [|]); try contradiction;
    simpl in Hc; destruct (isLoading h); simpl in Hc;
    destruct ev; simpl in Hc;
    repeat (destruct Hc as [Hc|Hc]; [|]);
    try contradiction; try discriminate Hc;
    injection Hc as <- <-; reflexivity.
Qed.

(** The Start button of a stopped, idle panel sends the toggled state
    after the user switched YOLO mode on and picked another model. *)
Lemma start_passes_local_state_witness :
  let p := {| projectName := js "demo"; status := stopped;
              yoloMode := None; currentModel := None |} in
  let h := {| startAgent_isPending := false; stopAgent_isPending := false;
              pauseAgent_isPending := false; resumeAgent_isPending := false |} in
  let l := apply_calls initial
             [setYoloEnabled (negb (yoloEnabled initial));
              setModel (js "gpt-4-turbo-preview")] in
  exists tree,
    AgentControl p h l = Some tree /\
    In ("button", start_button h l) (controls tree) /\
    fire (start_button h l) Click =
      [mutate startAgent
         (Some {| payload_yoloMode := true;
                  payload_model := js "gpt-4-turbo-preview" |})].
Proof.
  intros p h l.
  destruct (AgentControl_interactive p h l) as [tree [Ht Hi]].
  exists tree. split; [exact Ht|]. split.
  - rewrite controls_via_interactive, Hi. simpl. tauto.
  - destruct (start_passes_local_state p h l) as [Hs _].
    exact Hs.
Defined.

End AgentControlFacts.

(** ** The spec-creation chat *)

Module SpecCreationChatFacts.
Import Types VDom VDomFacts JsStringFacts SpecCreationChat.

Section Interactive.
Variables (p : SpecCreationChatProps) (h : SpecChat) (l : Local).

Lemma header_interactive :
  flat_map (select is_interactive) [header_bar p h] =
  [("button", cancel_button, [VComp (Icon "X")])].
Proof.
  unfold header_bar, ConnectionIndicator.
  destruct (isComplete h), (String.eqb (connectionStatus h) "connected"),
    (String.eqb (connectionStatus h) "connecting"),
    (String.eqb (connectionStatus h) "error"); reflexivity.
Qed.

Lemma banner_interactive :
  flat_map (select is_interactive) (error_banner l) =
  match error l with
  | Some e =>
      if truthy e then [("button", dismiss_button, [VComp (Icon "X")])]
      else []
  | None => []
  end.
Proof. unfold error_banner. destruct (error l) as [[|c e]|]; reflexivity. Qed.

Lemma messages_interactive :
  flat_map (select is_interactive) [messages_area h] =
  if (length (messages h) =? 0) && negb (isLoading h)
     && String.eqb (connectionStatus h) "error"
  then [("button", retry_button,
         [VComp (Icon "RotateCcw"); VText "Retry Connection"])]
  else [].
Proof.
  unfold messages_area. cbn [flat_map]. rewrite select_VElem, app_nil_r.
  rewrite !flat_map_app. unfold chat_message. rewrite select_comps.
  unfold empty_state, structured_questions, typing_indicator, questions_truthy.
  destruct ((length (messages h) =? 0) && negb (isLoading h)),
    (String.eqb (connectionStatus h) "error"),
    (currentQuestions h) as [[|q qs]|], (isLoading h); reflexivity.
Qed.

Lemma input_interactive :
  flat_map (select is_interactive) (input_area h l) =
  if negb (isComplete h) then
    [("input", text_input h l, []);
     ("button", send_button h l, [VComp (Icon "Send")])]
  else [].
Proof. unfold input_area. destruct (isComplete h); reflexivity. Qed.

Lemma footer_interactive :
  flat_map (select is_interactive) (completion_footer h) =
  if isComplete h then
    [("button", continue_button, [VText "Continue to Project"])]
  else [].
Proof. unfold completion_footer. destruct (isComplete h); reflexivity. Qed.

(** The interactive elements of the rendered chat, in document
    order. *)
Lemma SpecCreationChat_interactive :
  select is_interactive (SpecCreationChat p h l) =
  [("button", cancel_button, [VComp (Icon "X")])] ++
  match error l with
  | Some e =>
      if truthy e then [("button", dismiss_button, [VComp (Icon "X")])]
      else []
  | None => []
  end ++
  (if (length (messages h) =? 0) && negb (isLoading h)
      && String.eqb (connectionStatus h) "error"
   then [("button", retry_button,
          [VComp (Icon "RotateCcw"); VText "Retry Connection"])]
   else []) ++
  (if negb (isComplete h) then
     [("input", text_input h l, []);
      ("button", send_button h l, [VComp (Icon "Send")])]
   else []) ++
  (if isComplete h then
     [("button", continue_button, [VText "Continue to Project"])]
   else []).
Proof.
  unfold SpecCreationChat. rewrite select_VElem.
  rewrite !flat_map_app.
  rewrite header_interactive, banner_interactive, messages_interactive,
    input_interactive, footer_interactive.
  reflexivity.
Qed.

Lemma inputs_rendered :
  by_tag "input" (SpecCreationChat p h l) =
  if isComplete h then [] else [text_input h l].
Proof.
  unfold by_tag.
  rewrite (select_via_interactive _ _ has_tag_input_interactive).
  rewrite SpecCreationChat_interactive.
  rewrite !List.filter_app.
  destruct (error l) as [[|c e]|],
    ((length (messages h) =? 0) && negb (isLoading h)
     && String.eqb (connectionStatus h) "error"),
    (isComplete h); reflexivity.
Qed.

Lemma send_buttons_rendered :
  buttons_with (is_icon "Send") (SpecCreationChat p h l) =
  if isComplete h then [] else [send_button h l].
Proof.
  unfold buttons_with.
  rewrite (select_via_interactive _ _ (button_with_interactive _)).
  rewrite SpecCreationChat_interactive.
  rewrite !List.filter_app.
  destruct (error l) as [[|c e]|],
    ((length (messages h) =? 0) && negb (isLoading h)
     && String.eqb (connectionStatus h) "error"),
    (isComplete h); reflexivity.
Qed.

Lemma continue_buttons_rendered :
  buttons_labelled "Continue to Project" (SpecCreationChat p h l) =
  if isComplete h then [continue_button] else [].
Proof.
  unfold buttons_labelled, buttons_with.
  rewrite (select_via_interactive _ _ (button_with_interactive _)).
  rewrite SpecCreationChat_interactive.
  rewrite !List.filter_app.
  destruct (error l) as [[|c e]|],
    ((length (messages h) =? 0) && negb (isLoading h)
     && String.eqb (connectionStatus h) "error"),
    (isComplete h); reflexivity.
Qed.

Lemma retry_buttons_rendered :
  buttons_labelled "Retry Connection" (SpecCreationChat p h l) =
  if (length (messages h) =? 0) && negb (isLoading h)
     && String.eqb (connectionStatus h) "error"
  then [retry_button] else [].
Proof.
  unfold buttons_labelled, buttons_with.
  rewrite (select_via_interactive _ _ (button_with_interactive _)).
  rewrite SpecCreationChat_interactive.
  rewrite !List.filter_app.
  destruct (error l) as [[|c e]|],
    ((length (messages h) =? 0) && negb (isLoading h)
     && String.eqb (connectionStatus h) "error"),
    (isComplete h); reflexivity.
Qed.

(** The footer's success line is rendered exactly when the session is
    complete. *)
Lemma success_text_rendered :
  spans_labelled success_text (SpecCreationChat p h l) =
  if isComplete h then [("span", plain, [VText success_text])] else [].
Proof.
  unfold spans_labelled, SpecCreationChat. rewrite select_VElem.
  rewrite !flat_map_app.
  assert (Hh : flat_map (select (is_element_with "span" (is_text success_text)))
                        [header_bar p h] = []).
  { unfold header_bar, ConnectionIndicator.
    destruct (isComplete h), (String.eqb (connectionStatus h) "connected"),
      (String.eqb (connectionStatus h) "connecting"),
      (String.eqb (connectionStatus h) "error"); reflexivity. }
  assert (Hb : flat_map (select (is_element_with "span" (is_text success_text)))
                        (error_banner l) = []).
  { unfold error_banner. destruct (error l) as [[|c e]|]; reflexivity. }
  assert (Hm : flat_map (select (is_element_with "span" (is_text success_text)))
                        [messages_area h] = []).
  { unfold messages_area. cbn [flat_map]. rewrite select_VElem, app_nil_r.
    rewrite !flat_map_app. unfold chat_message. rewrite select_comps.
    unfold empty_state, structured_questions, typing_indicator, questions_truthy.
    destruct ((length (messages h) =? 0) && negb (isLoading h)),
      (String.eqb (connectionStatus h) "error"),
      (currentQuestions h) as [[|q qs]|], (isLoading h); reflexivity. }
  rewrite Hh, Hb, Hm. unfold input_area, completion_footer.
  destruct (isComplete h); reflexivity.
Qed.

(** Every call an event on the rendered chat can make, by the
    element that makes it. *)
Lemma fired_cases e ev c :
  In e (elements (SpecCreationChat p h l)) ->
  In c (fire (attrs_of e) ev) ->
  c = onCancel \/
  c = setError None \/
  (c = start /\
   (length (messages h) =? 0) && negb (isLoading h)
   && String.eqb (connectionStatus h) "error" = true) \/
  (isComplete h = false /\ In c (fire (text_input h l) ev)) \/
  (isComplete h = false /\ In c (fire (send_button h l) ev)) \/
  (isComplete h = true /\ c = onComplete []).
Proof.
  intros He Hc.
  pose proof (fired_from_interactive _ _ _ _ He Hc) as Hi.
  rewrite SpecCreationChat_interactive in Hi.
  rewrite !in_app_iff in Hi.
  destruct Hi as [Hi|[Hi|[Hi|[Hi|Hi]]]].
  - destruct Hi as [<-|[]]. destruct ev; simpl in Hc; intuition.
  - destruct (error l) as [err|]; [|destruct Hi].
    destruct (truthy err); [|destruct Hi].
    destruct Hi as [<-|[]]. destruct ev; simpl in Hc; intuition.
  - destruct ((length (messages h) =? 0) && negb (isLoading h)
              && String.eqb (connectionStatus h) "error"); [|destruct Hi].
    destruct Hi as [<-|[]]. destruct ev; simpl in Hc; intuition.
  - destruct (isComplete h); [destruct Hi|].
    destruct Hi as [<-|[<-|[]]]; auto 10.
  - destruct (isComplete h); [|destruct Hi].
    destruct Hi as [<-|[]]. destruct ev; simpl in Hc; intuition.
Qed.

End Interactive.

(** *** Handlers *)

Lemma handleSendMessage_calls h l c :
  In c (handleSendMessage h l) ->
  isLoading h = false /\
  (c = sendMessage (trim (input l)) \/ c = setInput []).
Proof.
  unfold handleSendMessage.
  destruct (truthy (trim (input l))), (isLoading h); simpl; intuition.
Qed.

Lemma text_input_fires h l ev c :
  In c (fire (text_input h l) ev) ->
  input_disabled h = false /\
  ((exists v, c = setInput v) \/ c = preventDefault \/
   In c (handleSendMessage h l)).
Proof.
  unfold fire. cbn [disabled text_input].
  destruct (input_disabled h); [intros []|].
  intros H. split; [reflexivity|].
  destruct ev as [|v|k]; simpl in H.
  - destruct H.
  - destruct H as [<-|[]]. eauto.
  - unfold handleKeyDown in H.
    destruct (String.eqb (key k) "Enter" && negb (shiftKey k)); [|destruct H].
    destruct H as [<-|H]; auto.
Qed.

Lemma send_button_fires h l ev c :
  In c (fire (send_button h l) ev) ->
  disabled (send_button h l) = false /\ In c (handleSendMessage h l).
Proof.
  unfold fire. destruct (disabled (send_button h l)); [intros []|].
  intros H. split; [reflexivity|].
  destruct ev; simpl in H; solve [destruct H | exact H].
Qed.

Lemma send_button_disabled h l :
  input_disabled h = true -> disabled (send_button h l) = true.
Proof.
  unfold input_disabled. cbn [disabled send_button].
  destruct (negb (truthy (trim (input l)))); [reflexivity|].
  now rewrite orb_false_l.
Qed.

(** [null] and the empty array differ: an empty question batch is
    truthy, so while loading it neither shows the typing indicator nor
    disables the input, although no question form is rendered for it. *)
Example empty_batch_is_truthy :
  let h := {| messages := []; isLoading := true; isComplete := false;
              connectionStatus := "connected"; currentQuestions := Some [] |} in
  input_disabled h = false /\ typing_indicator h = [] /\
  structured_questions h = [].
Proof. repeat split. Qed.

Lemma onError_sets_error l err :
  apply_calls l (onError err) = {| input := input l; error := Some err |}.
Proof. reflexivity. Qed.

(** Events on the rendered chat send a message only through an enabled
    text input or send button. *)
Lemma sendMessage_needs_input p h l e ev c :
  In e (elements (SpecCreationChat p h l)) ->
  In c (fire (attrs_of e) ev) ->
  is_sendMessage c = true ->
  isComplete h = false /\ input_disabled h = false /\ isLoading h = false.
Proof.
  intros He Hc Hs.
  destruct (fired_cases p h l e ev c He Hc)
    as [->|[->|[[-> _]|[[Hn H]|[[Hn H]|[_ ->]]]]]]; try discriminate Hs.
  - apply text_input_fires in H as [Hd [[v ->]|[->|H]]]; try discriminate Hs.
    apply handleSendMessage_calls in H as [Hl _]. auto.
  - apply send_button_fires in H as [Hd H].
    apply handleSendMessage_calls in H as [Hl _].
    repeat split; auto.
    destruct (input_disabled h) eqn:Hi; [|reflexivity].
    now rewrite (send_button_disabled h l Hi) in Hd.
Qed.

(** *** Effects *)

Lemma mount_effect_never_reruns changed : reruns changed mount_effect = false.
Proof. reflexivity. Qed.

Lemma mount_commit r :
  commit_calls Mount (render_effects r) =
  start :: scrollIntoView :: body (focus_effect (props r) (hook r) (local r)).
Proof. unfold render_effects, effects. simpl. now rewrite app_nil_r. Qed.

Lemma focus_body_cases p h l :
  body (focus_effect p h l) = [focus] \/ body (focus_effect p h l) = [].
Proof.
  simpl. destruct (negb (isLoading h) && negb (questions_truthy h)
                   && inputRef_current p h l); auto.
Qed.

Lemma update_commit_quiet changed r :
  List.filter is_start (commit_calls (Update changed) (render_effects r)) = [] /\
  List.filter is_disconnect (commit_calls (Update changed) (render_effects r)) = [].
Proof.
  unfold render_effects, effects, commit_calls.
  cbn [List.filter]. rewrite mount_effect_never_reruns.
  destruct (focus_body_cases (props r) (hook r) (local r)) as [Hf|Hf];
    destruct (reruns changed scroll_effect),
      (reruns changed (focus_effect (props r) (hook r) (local r)));
    cbn [flat_map cleanup body scroll_effect focus_effect app];
    cbn [body focus_effect] in Hf; rewrite ?Hf; split; reflexivity.
Qed.

Lemma updates_quiet (updates : list ((Dep -> bool) * Render)) :
  List.filter is_start
    (flat_map (fun u => commit_calls (Update (fst u)) (render_effects (snd u)))
              updates) = [] /\
  List.filter is_disconnect
    (flat_map (fun u => commit_calls (Update (fst u)) (render_effects (snd u)))
              updates) = [].
Proof.
  induction updates as [|[changed r] us [IHs IHd]]; [now split|].
  cbn [flat_map fst snd]. rewrite !List.filter_app, IHs, IHd.
  destruct (update_commit_quiet changed r) as [-> ->]. now split.
Qed.

Lemma retry_condition (h : SpecChat) :
  (length (messages h) =? 0) && negb (isLoading h)
  && String.eqb (connectionStatus h) "error" = true <->
  connectionStatus h = "error" /\ messages h = [] /\ isLoading h = false.
Proof.
  rewrite !andb_true_iff, Nat.eqb_eq, String.eqb_eq, negb_true_iff.
  rewrite length_zero_iff_nil. tauto.
Qed.

(** C2.  Connection lifecycle.  From mounting through any number of
    re-renders the effects call [start] exactly once (on the mount
    commit) and never call [disconnect]; unmounting calls
    [disconnect].  The "Retry Connection" button is rendered exactly
    when [connectionStatus] is 'error', the transcript is empty and
    nothing is loading; clicking it calls [start], and no other
    element of the chat can call [start]. *)
Theorem connection_lifecycle :
  (forall first updates,
      List.filter is_start (commit_calls Mount (render_effects first)) = [start] /\
      List.filter is_start (mounted_calls first updates) = [start] /\
      List.filter is_disconnect (mounted_calls first updates) = []) /\
  (forall last, unmount_calls last = [disconnect]) /\
  (forall p h l,
      (buttons_labelled "Retry Connection" (SpecCreationChat p h l) = [retry_button]
       <-> connectionStatus h = "error" /\ messages h = [] /\ isLoading h = false) /\
      (buttons_labelled "Retry Connection" (SpecCreationChat p h l) = []
       <-> ~ (connectionStatus h = "error" /\ messages h = [] /\ isLoading h = false)) /\
      fire retry_button Click = [start] /\
      (forall e ev,
          In e (elements (SpecCreationChat p h l)) ->
          In start (fire (attrs_of e) ev) ->
          connectionStatus h = "error" /\ messages h = [] /\ isLoading h = false)).
Proof.
  split; [|split].
  - intros first updates.
    assert (Hm : List.filter is_start (commit_calls Mount (render_effects first))
                 = [start]).
    { rewrite mount_commit.
      destruct (focus_body_cases (props first) (hook first) (local first))
        as [-> | ->]; reflexivity. }
    assert (Hd : List.filter is_disconnect
                   (commit_calls Mount (render_effects first)) = []).
    { rewrite mount_commit.
      destruct (focus_body_cases (props first) (hook first) (local first))
        as [-> | ->]; reflexivity. }
    destruct (updates_quiet updates) as [Hus Hud].
    unfold mounted_calls. rewrite !List.filter_app, Hm, Hd, Hus, Hud.
    now repeat split.
  - intros last. reflexivity.
  - intros p h l. rewrite retry_buttons_rendered.
    pose proof (retry_condition h) as Hrc.
    destruct ((length (messages h) =? 0) && negb (isLoading h)
              && String.eqb (connectionStatus h) "error") eqn:Hc.
    + assert (Hyes : connectionStatus h = "error" /\ messages h = [] /\
                     isLoading h = false) by now apply Hrc.
      split; [tauto|]. split; [|split; [reflexivity|tauto]].
      split; [discriminate|tauto].
    + assert (Hno : ~ (connectionStatus h = "error" /\ messages h = [] /\
                       isLoading h = false))
        by (intros H; apply Hrc in H; discriminate H).
      split; [split; [discriminate|tauto]|].
      split; [tauto|]. split; [reflexivity|].
      intros e ev He Hs. exfalso. clear Hrc Hno.
      destruct (fired_cases p h l e ev start He Hs)
        as [H|[H|[[_ H]|[[_ H]|[[_ H]|[_ H]]]]]]; try discriminate H.
      * congruence.
      * unfold fire in H. destruct (disabled (text_input h l)); [destruct H|].
        destruct ev; simpl in H.
        -- destruct H.
        -- destruct H as [H|[]]. discriminate H.
        -- unfold handleKeyDown, handleSendMessage in H.
           destruct (String.eqb (key e0) "Enter" && negb (shiftKey e0));
             [|destruct H].
           destruct (negb (truthy (trim (input l))) || isLoading h);
             simpl in H; intuition discriminate.
      * unfold fire in H. destruct (disabled (send_button h l)); [destruct H|].
        destruct ev; simpl in H; try contradiction.
        unfold handleSendMessage in H.
        destruct (negb (truthy (trim (input l))) || isLoading h);
          simpl in H; intuition discriminate.
Qed.

(** *** Completion *)

(** C5.  Once [isComplete] is true the rendered chat contains no text
    input and no send button, it contains the completion footer (its
    success line and its "Continue to Project" button), and no event on
    it can call [sendMessage].  While [isComplete] is false the
    completion footer is not rendered (and the text input and send
    button are). *)
Theorem completion_replaces_input (p : SpecCreationChatProps) (h : SpecChat) (l : Local) :
  (isComplete h = true ->
     by_tag "input" (SpecCreationChat p h l) = [] /\
     buttons_with (is_icon "Send") (SpecCreationChat p h l) = [] /\
     spans_labelled success_text (SpecCreationChat p h l)
       = [("span", plain, [VText success_text])] /\
     buttons_labelled "Continue to Project" (SpecCreationChat p h l)
       = [continue_button] /\
     (forall e ev c,
         In e (elements (SpecCreationChat p h l)) ->
         In c (fire (attrs_of e) ev) -> is_sendMessage c = false)) /\
  (isComplete h = false ->
     spans_labelled success_text (SpecCreationChat p h l) = [] /\
     buttons_labelled "Continue to Project" (SpecCreationChat p h l) = [] /\
     by_tag "input" (SpecCreationChat p h l) = [text_input h l] /\
     buttons_with (is_icon "Send") (SpecCreationChat p h l) = [send_button h l]).
Proof.
  rewrite inputs_rendered, send_buttons_rendered, continue_buttons_rendered,
    success_text_rendered.
  split; intros Hc; rewrite Hc; repeat split.
  intros e ev c He Hf.
  destruct (is_sendMessage c) eqn:Hs; [|reflexivity].
  destruct (sendMessage_needs_input p h l e ev c He Hf Hs) as [Hn _].
  congruence.
Qed.

(** C8.  The "Continue to Project" button of the completion footer
    calls [onComplete] with the empty string; whatever path a
    spec-complete message carried, no event on the rendered chat calls
    [onComplete] with anything else. *)
Theorem continue_passes_empty_path (p : SpecCreationChatProps) (h : SpecChat) (l : Local) :
  (isComplete h = true ->
     buttons_labelled "Continue to Project" (SpecCreationChat p h l)
       = [continue_button]) /\
  fire continue_button Click = [onComplete []] /\
  (forall e ev specPath,
      In e (elements (SpecCreationChat p h l)) ->
      In (onComplete specPath) (fire (attrs_of e) ev) ->
      specPath = []) /\
  (forall (m : SpecChatCompleteMessage) e ev,
      spec_complete_path m <> [] ->
      In e (elements (SpecCreationChat p h l)) ->
      ~ In (onComplete (spec_complete_path m)) (fire (attrs_of e) ev)).
Proof.
  assert (Hall : forall e ev specPath,
             In e (elements (SpecCreationChat p h l)) ->
             In (onComplete specPath) (fire (attrs_of e) ev) ->
             specPath = []).
  { intros e ev specPath He Hf.
    destruct (fired_cases p h l e ev _ He Hf)
      as [H|[H|[[H _]|[[_ H]|[[_ H]|[_ H]]]]]]; try discriminate H.
    - apply text_input_fires in H as [_ [[v H]|[H|H]]]; try discriminate H.
      apply handleSendMessage_calls in H as [_ [H|H]]; discriminate H.
    - apply send_button_fires in H as [_ H].
      apply handleSendMessage_calls in H as [_ [H|H]]; discriminate H.
    - now injection H. }
  rewrite continue_buttons_rendered.
  split; [now intros ->|]. split; [reflexivity|]. split; [exact Hall|].
  intros m e ev Hm He Hf. apply Hm. eapply Hall; eassumption.
Qed.

(** *** Sending *)

(** C9.  [handleSendMessage] does nothing when the input trims to the
    empty string or a response is loading: no call is made and the
    local state is unchanged.  Otherwise it calls [sendMessage] with
    the trimmed input and resets the input to the empty string. *)
Theorem handleSendMessage_guarded (h : SpecChat) (l : Local) :
  (trim (input l) = [] \/ isLoading h = true ->
     handleSendMessage h l = [] /\
     apply_calls l (handleSendMessage h l) = l) /\
  (trim (input l) <> [] -> isLoading h = false ->
     handleSendMessage h l = [sendMessage (trim (input l)); setInput []] /\
     input (apply_calls l (handleSendMessage h l)) = [] /\
     error (apply_calls l (handleSendMessage h l)) = error l).
Proof.
  unfold handleSendMessage. split.
  - intros [Ht | Hl].
    + rewrite Ht. now split.
    + rewrite Hl, orb_true_r. now split.
  - intros Ht%truthy_nonempty Hl. rewrite Ht, Hl. now repeat split.
Qed.

(** C10.  Whenever [connectionStatus] is not 'connected', and also
    whenever [isLoading] is true while [currentQuestions] is null,
    the text input and the send button are disabled, and no event on
    the rendered chat can call [sendMessage]. *)
Theorem input_disabled_unless_connected
    (p : SpecCreationChatProps) (h : SpecChat) (l : Local) :
  connectionStatus h <> "connected" \/
  (isLoading h = true /\ currentQuestions h = None) ->
  disabled (text_input h l) = true /\
  disabled (send_button h l) = true /\
  Forall (fun a => disabled a = true)
         (by_tag "input" (SpecCreationChat p h l) ++
          buttons_with (is_icon "Send") (SpecCreationChat p h l)) /\
  (forall e ev c,
      In e (elements (SpecCreationChat p h l)) ->
      In c (fire (attrs_of e) ev) -> is_sendMessage c = false).
Proof.
  intros Hcond.
  assert (Hd : input_disabled h = true).
  { unfold input_disabled, questions_truthy.
    destruct Hcond as [Hn | [-> ->]]; [|reflexivity].
    apply String.eqb_neq in Hn. rewrite Hn. apply orb_true_r. }
  assert (Hb : disabled (send_button h l) = true)
    by now apply send_button_disabled.
  split; [exact Hd|]. split; [exact Hb|]. split.
  - rewrite inputs_rendered, send_buttons_rendered.
    destruct (isComplete h); simpl; auto.
  - intros e ev c He Hf.
    destruct (is_sendMessage c) eqn:Hs; [|reflexivity].
    destruct (sendMessage_needs_input p h l e ev c He Hf Hs) as [_ [Hi _]].
    congruence.
Qed.

(** *** Concrete sessions *)

Lemma connection_lifecycle_witness :
  List.filter is_start
    (mounted_calls
       {| props := demo; hook := connecting; local := initial |}
       [(fun _ => true, {| props := demo; hook := failed; local := initial |});
        (fun _ => true, {| props := demo; hook := chatting; local := initial |})])
    = [start] /\
  unmount_calls {| props := demo; hook := chatting; local := initial |}
    = [disconnect] /\
  buttons_labelled "Retry Connection" (SpecCreationChat demo failed initial)
    = [retry_button] /\
  buttons_labelled "Retry Connection" (SpecCreationChat demo connecting initial)
    = [].
Proof.
  destruct connection_lifecycle as [Hmount [Hunmount Hretry]].
  split; [apply Hmount|]. split; [apply Hunmount|].
  split.
  - apply (Hretry demo failed initial). repeat split; reflexivity.
  - apply (Hretry demo connecting initial). intros [H _]. discriminate H.
Defined.

Lemma completion_replaces_input_witness :
  (isComplete finished = true /\
   by_tag "input" (SpecCreationChat demo finished initial) = [] /\
   buttons_labelled "Continue to Project" (SpecCreationChat demo finished initial)
     = [continue_button]) /\
  (isComplete chatting = false /\
   buttons_labelled "Continue to Project" (SpecCreationChat demo chatting initial)
     = [] /\
   by_tag "input" (SpecCreationChat demo chatting initial)
     = [text_input chatting initial]).
Proof.
  split.
  - split; [reflexivity|].
    destruct (completion_replaces_input demo finished initial) as [H _].
    destruct (H eq_refl) as [Hi [_ [_ [Hb _]]]]. now split.
  - split; [reflexivity|].
    destruct (completion_replaces_input demo chatting initial) as [_ H].
    destruct (H eq_refl) as [_ [Hb [Hi _]]]. now split.
Defined.

Lemma continue_passes_empty_path_witness :
  isComplete finished = true /\
  buttons_labelled "Continue to Project" (SpecCreationChat demo finished initial)
    = [continue_button] /\
  fire continue_button Click = [onComplete []].
Proof.
  destruct (continue_passes_empty_path demo finished initial) as [Hb [Hf _]].
  split; [reflexivity|]. split; [apply Hb; reflexivity|exact Hf].
Defined.

Lemma handleSendMessage_guarded_witness :
  (trim (input (typed "   ")) = [] /\
   handleSendMessage chatting (typed "   ") = []) /\
  (trim (input (typed "  hello world ")) <> [] /\
   isLoading chatting = false /\
   handleSendMessage chatting (typed "  hello world ")
     = [sendMessage (js "hello world"); setInput []]).
Proof.
  split.
  - split; [reflexivity|].
    destruct (handleSendMessage_guarded chatting (typed "   ")) as [H _].
    apply H. left. reflexivity.
  - split; [discriminate|]. split; [reflexivity|].
    destruct (handleSendMessage_guarded chatting (typed "  hello world "))
      as [_ H].
    apply H; [discriminate|reflexivity].
Defined.

Lemma input_disabled_unless_connected_witness :
  connectionStatus connecting <> "connected" /\
  disabled (text_input connecting (typed "hello")) = true /\
  disabled (send_button connecting (typed "hello")) = true /\
  by_tag "input" (SpecCreationChat demo connecting (typed "hello"))
    = [text_input connecting (typed "hello")].
Proof.
  assert (Hn : connectionStatus connecting <> "connected") by discriminate.
  destruct (input_disabled_unless_connected demo connecting (typed "hello")
              (or_introl Hn)) as [Hi [Hb _]].
  split; [exact Hn|]. split; [exact Hi|]. split; [exact Hb|]. reflexivity.
Defined.

End SpecCreationChatFacts.

(** * Further properties *)

(** ** Traversal of child components *)

Module VDomMore.
Import VDom VDomFacts.

Section Tree.
Context {Call Comp : Type}.
Implicit Types (n : VNode Call Comp) (cs : list (VNode Call Comp)).

Lemma components_VElem tag a cs :
  components (VElem tag a cs) = flat_map components cs.
Proof. reflexivity. Qed.

Lemma flat_map_flat_map {A B C} (f : A -> list B) (g : B -> list C) (xs : list A) :
  flat_map g (flat_map f xs) = flat_map (fun x => flat_map g (f x)) xs.
Proof.
  induction xs as [|x xs IH]; simpl; [reflexivity|].
  now rewrite flat_map_app, IH.
Qed.

Lemma pick_VElem {A} (f : Comp -> option A) tag a cs :
  pick f (VElem tag a cs) = flat_map (pick f) cs.
Proof. unfold pick. rewrite components_VElem. apply flat_map_flat_map. Qed.

Lemma pick_comps_none {A X} (f : Comp -> option A) (g : X -> Comp) (xs : list X) :
  (forall x, f (g x) = None) ->
  flat_map (pick f) (map (fun x => VComp (Call:=Call) (g x)) xs) = [].
Proof.
  intros Hf. induction xs as [|x xs IH]; simpl; [reflexivity|].
  unfold pick at 1. simpl. now rewrite Hf, IH.
Qed.

Lemma pick_comps_all {A} (f : Comp -> option A) (g : A -> Comp) (xs : list A) :
  (forall x, f (g x) = Some x) ->
  flat_map (pick f) (map (fun x => VComp (Call:=Call) (g x)) xs) = xs.
Proof.
  intros Hf. induction xs as [|x xs IH]; simpl; [reflexivity|].
  unfold pick at 1. simpl. now rewrite Hf, IH.
Qed.

Lemma selected_in_elements (P : Element (Call:=Call) (Comp:=Comp) -> bool) n e :
  In e (select P n) -> In e (elements n).
Proof. unfold select. now intros [H _]%filter_In. Qed.

End Tree.

End VDomMore.

(** ** The live-update message contract *)

Module ContractMore.
Import Types.

(** X1.  [WSMessageType] and the [WSMessage] union agree: a string is
    the [type] of some [WSMessage] exactly when it is a member of
    [WSMessageType], and distinct members of [WSMessageType] are
    distinct strings. *)
Theorem ws_message_types_agree :
  (forall s : string,
      (exists msg : WSMessage, ws_type msg = s) <->
      (exists t : WSMessageType, WSMessageType_key t = s)) /\
  (forall t1 t2, WSMessageType_key t1 = WSMessageType_key t2 -> t1 = t2).
Proof.
  split.
  - intros s. split.
    + intros [msg <-]. destruct msg; simpl.
      * now exists type_progress.
      * now exists type_feature_update.
      * now exists type_log.
      * now exists type_agent_status.
      * now exists type_pong.
    + intros [t <-]. destruct t.
      * exists (WSOfProgress
                  (with_type {| passing := 0%float; in_progress := 0%float;
                                total := 0%float; percentage := 0%float |})).
        reflexivity.
      * exists (WSOfFeatureUpdate
                  {| wsf_type := TheLit; wsf_feature_id := 0%float; wsf_passes := true |}).
        reflexivity.
      * exists (WSOfLog {| wsl_type := TheLit; wsl_line := []; wsl_timestamp := [] |}).
        reflexivity.
      * exists (WSOfAgentStatus {| wsa_type := TheLit; wsa_status := running |}).
        reflexivity.
      * exists (WSOfPong {| wspong_type := TheLit |}). reflexivity.
  - intros t1 t2. destruct t1, t2; simpl; intros H;
      first [reflexivity | discriminate H].
Qed.

End ContractMore.

(** ** More on the agent control panel *)

Module AgentControlMore.
Import Types VDom VDomFacts VDomMore AgentControl AgentControlFacts.

(** X2.  A mutation can be issued from the rendered panel exactly when
    no mutation is pending and the mutation fits the status: start when
    stopped or crashed, pause or stop when running, resume or stop when
    paused. *)
Theorem mutation_reachable_iff (p : AgentControlProps) (h : Mutations) (l : Local)
    (m : Mutation) :
  (exists tree e ev arg,
      AgentControl p h l = Some tree /\
      In e (elements tree) /\
      In (mutate m arg) (fire (attrs_of e) ev)) <->
  isLoading h = false /\
  match status p, m with
  | (stopped | crashed), startAgent => True
  | running, (pauseAgent | stopAgent) => True
  | paused, (resumeAgent | stopAgent) => True
  | _, _ => False
  end.
Proof.
  destruct (AgentControl_interactive p h l) as [tree [Ht Hn]].
  split.
  - intros [tree' [e [ev [arg [Ht' [He Hc]]]]]].
    rewrite Ht in Ht'. injection Ht' as <-.
    pose proof (fired_from_interactive _ _ _ _ He Hc) as Hi.
    rewrite Hn in Hi. clear Hn He Ht.
    unfold fire in Hc.
    destruct (status p); simpl in Hi;
      repeat (destruct Hi as [<-|Hi]; [|]); try contradiction;
      simpl in Hc; destruct (isLoading h); simpl in Hc;
      try contradiction;
      destruct ev; simpl in Hc;
      repeat (destruct Hc as [Hc|Hc]; [|]);
      try contradiction; try discriminate Hc;
      injection Hc as <- <-; (split; [reflexivity|exact I]).
  - intros [Hl Hm].
    assert (Hpick : forall e, In e (select is_interactive tree) ->
              forall arg, In (mutate m arg) (fire (attrs_of e) Click) ->
              exists tree e ev arg,
                AgentControl p h l = Some tree /\
                In e (elements tree) /\
                In (mutate m arg) (fire (attrs_of e) ev)).
    { intros e He arg Hf. exists tree, e, Click, arg.
      split; [exact Ht|]. split; [|exact Hf].
      now apply selected_in_elements in He. }
    rewrite Hn in Hpick. clear Hn Ht.
    destruct (status p), m; try contradiction.
    + eapply (Hpick ("button", start_button h l, _)); [simpl; tauto|].
      unfold fire; simpl. rewrite Hl. left. reflexivity.
    + eapply (Hpick ("button", stop_button h, _)); [simpl; tauto|].
      unfold fire; simpl. rewrite Hl. left. reflexivity.
    + eapply (Hpick ("button", pause_button h, _)); [simpl; tauto|].
      unfold fire; simpl. rewrite Hl. left. reflexivity.
    + eapply (Hpick ("button", stop_button h, _)); [simpl; tauto|].
      unfold fire; simpl. rewrite Hl. left. reflexivity.
    + eapply (Hpick ("button", resume_button h, _)); [simpl; tauto|].
      unfold fire; simpl. rewrite Hl. left. reflexivity.
    + eapply (Hpick ("button", start_button h l, _)); [simpl; tauto|].
      unfold fire; simpl. rewrite Hl. left. reflexivity.
Qed.

(** X3.  The two local controls.  Clicking the YOLO toggle flips
    [yoloEnabled] and leaves the model alone, also while a mutation is
    pending; clicking it again after the re-render restores the state.
    Choosing a model in the selector of a stopped or crashed panel sets
    [model] and leaves the toggle alone, and the next start request
    carries the chosen model. *)
Theorem local_controls_roundtrip (l : Local) (st : AgentStatus) (v : jsstring) :
  (let l1 := apply_calls l (fire (yolo_toggle l) Click) in
   yoloEnabled l1 = negb (yoloEnabled l) /\
   model l1 = model l /\
   apply_calls l1 (fire (yolo_toggle l1) Click) = l) /\
  (isStopped st = true ->
   let l2 := apply_calls l (fire (model_selector l st) (Change v)) in
   model l2 = v /\
   yoloEnabled l2 = yoloEnabled l /\
   value (model_selector l2 st) = Some v /\
   handleStart l2 =
     [mutate startAgent
        (Some {| payload_yoloMode := yoloEnabled l; payload_model := v |})]).
Proof.
  split.
  - destruct l as [y m]. cbn. now rewrite negb_involutive.
  - intros Hs. unfold fire. cbn [disabled model_selector]. rewrite Hs.
    now repeat split.
Qed.

Lemma local_controls_roundtrip_witness :
  isStopped crashed = true /\
  handleStart
    (apply_calls initial
       (fire (model_selector initial crashed) (Change (js "gemini-1.5-pro"))))
  = [mutate startAgent
       (Some {| payload_yoloMode := false;
                payload_model := js "gemini-1.5-pro" |})].
Proof.
  split; [reflexivity|].
  destruct (local_controls_roundtrip initial crashed (js "gemini-1.5-pro"))
    as [_ H].
  destruct (H eq_refl) as [_ [_ [_ Hs]]]. exact Hs.
Defined.


(** X5.  The status indicator tells the four statuses apart: two
    statuses render the same indicator only if they are the same
    status. *)
Theorem status_indicator_injective (s1 s2 : AgentStatus) :
  StatusIndicator s1 = StatusIndicator s2 <-> s1 = s2.
Proof.
  split; [|now intros ->].
  unfold StatusIndicator. rewrite !statusConfig_lookup.
  destruct s1, s2; simpl; intros H;
    first [reflexivity | discriminate H].
Qed.

End AgentControlMore.

(** ** More on trimming *)

Module JsStringMore.
Import JsString JsStringFacts.

Lemma trimStart_blank (s : jsstring) :
  forallb is_trim_space s = true -> trimStart s = [].
Proof.
  induction s as [|c s IH]; simpl; [reflexivity|].
  intros [Hc Hs]%andb_true_iff. rewrite Hc. now apply IH.
Qed.

Lemma trim_empty_iff (s : jsstring) :
  trim s = [] <-> forallb is_trim_space s = true.
Proof.
  split.
  - intros Ht. destruct (trim_split s) as [pre [post [Hs [Hpre Hpost]]]].
    rewrite Ht in Hs. simpl in Hs. subst s.
    rewrite forallb_app. now rewrite Hpre, Hpost.
  - intros Hs. unfold trim. now rewrite (trimStart_blank s Hs).
Qed.

End JsStringMore.

(** ** More on the spec-creation chat *)

Module SpecCreationChatMore.
Import Types VDom VDomFacts VDomMore JsStringFacts JsStringMore.
Import SpecCreationChat SpecCreationChatFacts.

(** *** Decomposing the rendered tree *)

Section Parts.
Variables (p : SpecCreationChatProps) (h : SpecChat) (l : Local).

Lemma select_SpecCreationChat (P : Element -> bool) :
  select P (SpecCreationChat p h l) =
  (if P ("div", plain,
         [header_bar p h] ++ error_banner l ++ [messages_area h] ++
         input_area h l ++ completion_footer h)
   then [("div", plain,
          [header_bar p h] ++ error_banner l ++ [messages_area h] ++
          input_area h l ++ completion_footer h)]
   else []) ++
  select P (header_bar p h) ++
  flat_map (select P) (error_banner l) ++
  ((if P ("div", plain,
          empty_state h ++ map chat_message (messages h) ++
          structured_questions h ++ typing_indicator h ++
          [VElem "div" plain []])
    then [("div", plain,
           empty_state h ++ map chat_message (messages h) ++
           structured_questions h ++ typing_indicator h ++
           [VElem "div" plain []])]
    else []) ++
   flat_map (select P) (empty_state h) ++
   flat_map (select P) (structured_questions h) ++
   flat_map (select P) (typing_indicator h) ++
   select P (VElem "div" plain [])) ++
  flat_map (select P) (input_area h l) ++
  flat_map (select P) (completion_footer h).
Proof.
  unfold SpecCreationChat. rewrite select_VElem. f_equal.
  rewrite !flat_map_app. cbn [flat_map]. rewrite !app_nil_r.
  f_equal. f_equal. f_equal.
  unfold messages_area. rewrite select_VElem. f_equal.
  rewrite !flat_map_app. unfold chat_message. rewrite select_comps.
  cbn [flat_map app]. now rewrite app_nil_r.
Qed.

Lemma pick_SpecCreationChat {A} (f : Comp -> option A) :
  pick f (SpecCreationChat p h l) =
  pick f (header_bar p h) ++
  flat_map (pick f) (error_banner l) ++
  (flat_map (pick f) (empty_state h) ++
   flat_map (pick f) (map chat_message (messages h)) ++
   flat_map (pick f) (structured_questions h) ++
   flat_map (pick f) (typing_indicator h)) ++
  flat_map (pick f) (input_area h l) ++
  flat_map (pick f) (completion_footer h).
Proof.
  unfold SpecCreationChat. rewrite pick_VElem.
  rewrite !flat_map_app. cbn [flat_map]. rewrite !app_nil_r.
  f_equal. f_equal. f_equal.
  unfold messages_area. rewrite pick_VElem.
  rewrite !flat_map_app. cbn [flat_map]. rewrite !app_nil_r.
  reflexivity.
Qed.

End Parts.

(** Case analysis on what the tree's shape depends on, one part of
    the tree at a time: parts that contribute nothing to a query are
    removed first, whatever is left is settled by cases. *)
Ltac header_cases h :=
  unfold header_bar, ConnectionIndicator;
  destruct (isComplete h),
    (String.eqb (connectionStatus h) "connected"),
    (String.eqb (connectionStatus h) "connecting"),
    (String.eqb (connectionStatus h) "error");
  reflexivity.

Ltac banner_cases l :=
  unfold error_banner; destruct (error l) as [[|? ?]|]; reflexivity.

Ltac empty_cases h :=
  unfold empty_state;
  destruct (length (messages h) =? 0), (isLoading h),
    (String.eqb (connectionStatus h) "error");
  reflexivity.

Ltac questions_cases h :=
  unfold structured_questions;
  destruct (currentQuestions h) as [[|? ?]|]; reflexivity.

Ltac typing_cases h :=
  unfold typing_indicator, questions_truthy;
  destruct (isLoading h), (currentQuestions h); reflexivity.

Ltac input_cases h := unfold input_area; destruct (isComplete h); reflexivity.

Ltac footer_cases h :=
  unfold completion_footer; destruct (isComplete h); reflexivity.

Ltac drop_part t tac :=
  let T := type of t in
  lazymatch T with
  | list ?A => replace t with (@nil A) by tac
  end.

Ltac drop_parts p h l :=
  repeat match goal with
    | |- context [select ?P (header_bar p h)] =>
        drop_part (select P (header_bar p h)) ltac:(header_cases h)
    | |- context [pick ?f (header_bar p h)] =>
        drop_part (pick f (header_bar p h)) ltac:(header_cases h)
    | |- context [flat_map ?F (error_banner l)] =>
        drop_part (flat_map F (error_banner l)) ltac:(banner_cases l)
    | |- context [flat_map ?F (empty_state h)] =>
        drop_part (flat_map F (empty_state h)) ltac:(empty_cases h)
    | |- context [flat_map ?F (structured_questions h)] =>
        drop_part (flat_map F (structured_questions h)) ltac:(questions_cases h)
    | |- context [flat_map ?F (typing_indicator h)] =>
        drop_part (flat_map F (typing_indicator h)) ltac:(typing_cases h)
    | |- context [flat_map ?F (input_area h l)] =>
        drop_part (flat_map F (input_area h l)) ltac:(input_cases h)
    | |- context [flat_map ?F (completion_footer h)] =>
        drop_part (flat_map F (completion_footer h)) ltac:(footer_cases h)
    end.

Ltac case_if_present x :=
  match goal with
  | |- context [x] => destruct x
  | _ => idtac
  end.

Ltac hide_children :=
  repeat match goal with
    | |- context [("div", plain, ?cs)] =>
        tryif is_var cs then fail else (let x := fresh "cs" in set (x := cs))
    end.

Ltac chat_cases p h l :=
  drop_parts p h l;
  hide_children;
  unfold header_bar, ConnectionIndicator, error_banner, empty_state,
    structured_questions, typing_indicator, questions_truthy, input_area,
    completion_footer;
  match goal with
  | |- context [currentQuestions h] =>
      destruct (currentQuestions h) as [[|? ?]|]
  | _ => idtac
  end;
  match goal with
  | |- context [error l] => destruct (error l) as [[|? ?]|]
  | _ => idtac
  end;
  case_if_present (isComplete h);
  case_if_present (String.eqb (connectionStatus h) "connected");
  case_if_present (String.eqb (connectionStatus h) "connecting");
  case_if_present (String.eqb (connectionStatus h) "error");
  case_if_present (length (messages h) =? 0);
  case_if_present (isLoading h);
  reflexivity.

(** *** Sending *)

Lemma handleSendMessage_sends h l c :
  In (sendMessage c) (handleSendMessage h l) <->
  isLoading h = false /\ c = trim (input l) /\ c <> [].
Proof.
  unfold handleSendMessage.
  destruct (truthy (trim (input l))) eqn:Ht, (isLoading h); simpl.
  - split; [intros []|intros [H _]; discriminate H].
  - apply truthy_nonempty in Ht. split.
    + intros [H|[H|[]]]; [|discriminate H].
      injection H as <-. auto.
    + intros [_ [-> _]]. now left.
  - split; [intros []|intros [H _]; discriminate H].
  - split; [intros []|].
    intros [_ [-> Hne]]. apply truthy_nonempty in Hne. congruence.
Qed.

Lemma input_enabled_iff h :
  input_disabled h = false <->
  connectionStatus h = "connected" /\
  (isLoading h = false \/ currentQuestions h <> None).
Proof.
  unfold input_disabled, questions_truthy.
  rewrite orb_false_iff, negb_false_iff, String.eqb_eq.
  destruct (isLoading h), (currentQuestions h); simpl;
    intuition (try discriminate; try congruence).
Qed.

Lemma text_input_in_tree p h l :
  isComplete h = false ->
  In ("input", text_input h l, []) (elements (SpecCreationChat p h l)).
Proof.
  intros Hc. apply (selected_in_elements is_interactive).
  rewrite SpecCreationChat_interactive, Hc. rewrite !in_app_iff.
  do 3 right. left. simpl. tauto.
Qed.

Lemma send_button_in_tree p h l :
  isComplete h = false ->
  In ("button", send_button h l, [VComp (Icon "Send")])
     (elements (SpecCreationChat p h l)).
Proof.
  intros Hc. apply (selected_in_elements is_interactive).
  rewrite SpecCreationChat_interactive, Hc. rewrite !in_app_iff.
  do 3 right. left. simpl. tauto.
Qed.

(** A message sent from the rendered chat is the trimmed input of a
    connected, idle, unfinished session. *)
Lemma sent_is_trimmed_input p h l e ev c :
  In e (elements (SpecCreationChat p h l)) ->
  In (sendMessage c) (fire (attrs_of e) ev) ->
  isComplete h = false /\
  connectionStatus h = "connected" /\
  isLoading h = false /\
  c = trim (input l) /\
  c <> [].
Proof.
  intros He Hf.
  destruct (sendMessage_needs_input p h l e ev _ He Hf eq_refl)
    as [Hc [Hi Hl]].
  apply input_enabled_iff in Hi as [Hs _].
  repeat split; try assumption;
    destruct (fired_cases p h l e ev _ He Hf)
      as [H|[H|[[H _]|[[_ H]|[[_ H]|[_ H]]]]]]; try discriminate H.
  - apply text_input_fires in H as [_ [[v H]|[H|H]]]; try discriminate H.
    now apply handleSendMessage_sends in H.
  - apply send_button_fires in H as [_ H].
    now apply handleSendMessage_sends in H.
  - apply text_input_fires in H as [_ [[v H]|[H|H]]]; try discriminate H.
    now apply handleSendMessage_sends in H.
  - apply send_button_fires in H as [_ H].
    now apply handleSendMessage_sends in H.
Qed.

(** X6.  Some event on the rendered chat sends the message [c] exactly
    when the session is not complete, the connection is 'connected',
    nothing is loading, and [c] is the non-empty trimmed input. *)
Theorem sendMessage_reachable_iff
    (p : SpecCreationChatProps) (h : SpecChat) (l : Local) (c : jsstring) :
  (exists e ev,
      In e (elements (SpecCreationChat p h l)) /\
      In (sendMessage c) (fire (attrs_of e) ev)) <->
  isComplete h = false /\
  connectionStatus h = "connected" /\
  isLoading h = false /\
  c = trim (input l) /\
  c <> [].
Proof.
  split.
  - intros [e [ev [He Hf]]]. eapply sent_is_trimmed_input; eassumption.
  - intros [Hc [Hs [Hl [Ht Hne]]]].
    exists ("input", text_input h l, []), (KeyDown enter).
    split; [now apply text_input_in_tree|].
    assert (Hi : input_disabled h = false)
      by (apply input_enabled_iff; auto).
    unfold fire. cbn [attrs_of fst snd disabled text_input]. rewrite Hi.
    cbn. right. now apply handleSendMessage_sends.
Qed.

(** X7.  Pressing Enter without Shift in an enabled text input first
    cancels the key's default action and then makes exactly the calls
    of a click on the send button; in a disabled text input it makes no
    call, and neither does the send button.  Shift+Enter and every
    other key make no call. *)
Theorem enter_key_is_send_click (h : SpecChat) (l : Local) (k : KeyboardEvent) :
  (key k = "Enter" -> shiftKey k = false ->
   (disabled (text_input h l) = false ->
    fire (text_input h l) (KeyDown k)
    = preventDefault :: fire (send_button h l) Click) /\
   (disabled (text_input h l) = true ->
    fire (text_input h l) (KeyDown k) = [] /\
    fire (send_button h l) Click = [])) /\
  (key k <> "Enter" \/ shiftKey k = true ->
   fire (text_input h l) (KeyDown k) = []).
Proof.
  split.
  - intros Hk Hs. cbn [disabled text_input]. split; intros Hd.
    + unfold fire.
      cbn [disabled text_input send_button onKeyDown onClick from_option default].
      rewrite Hd. unfold handleKeyDown. rewrite Hk, Hs.
      cbn [String.eqb negb andb]. rewrite ?String.eqb_refl. cbn [negb andb].
      unfold input_disabled in Hd. rewrite <- orb_assoc, Hd, orb_false_r.
      unfold handleSendMessage.
      destruct (truthy (trim (input l))), (isLoading h); reflexivity.
    + unfold fire. cbn [disabled text_input]. rewrite Hd.
      now rewrite (send_button_disabled h l Hd).
  - intros Hk. unfold fire. cbn [disabled text_input onKeyDown from_option].
    destruct (input_disabled h); [reflexivity|].
    unfold handleKeyDown.
    destruct Hk as [Hk | ->].
    + apply String.eqb_neq in Hk. now rewrite Hk.
    + now rewrite andb_false_r.
Qed.

Lemma enter_key_is_send_click_witness :
  disabled (text_input chatting (typed " hi ")) = false /\
  fire (text_input chatting (typed " hi ")) (KeyDown enter)
  = [preventDefault; sendMessage (js "hi"); setInput []] /\
  fire (send_button chatting (typed " hi ")) Click
  = [sendMessage (js "hi"); setInput []] /\
  disabled (text_input connecting (typed " hi ")) = true /\
  fire (text_input connecting (typed " hi ")) (KeyDown enter) = [] /\
  fire (text_input chatting (typed " hi "))
       (KeyDown {| key := "Enter"; shiftKey := true |}) = [].
Proof.
  destruct (enter_key_is_send_click chatting (typed " hi ") enter) as [H _].
  destruct (H eq_refl eq_refl) as [He _].
  destruct (enter_key_is_send_click connecting (typed " hi ") enter) as [G _].
  destruct (G eq_refl eq_refl) as [_ Gd].
  destruct (enter_key_is_send_click chatting (typed " hi ")
              {| key := "Enter"; shiftKey := true |}) as [_ H'].
  split; [reflexivity|].
  split; [rewrite (He eq_refl); reflexivity|].
  split; [reflexivity|].
  split; [reflexivity|].
  split; [apply (Gd eq_refl)|].
  apply H'. right. reflexivity.
Defined.

(** X8.  Sending clears the input, so sending again before the hook
    state changes sends nothing: after the state update of one
    [handleSendMessage], a second one makes no call, and if the first
    one sent a message the send button is disabled. *)
Theorem resend_is_noop (h : SpecChat) (l : Local) :
  handleSendMessage h (apply_calls l (handleSendMessage h l)) = [] /\
  (handleSendMessage h l <> [] ->
   input (apply_calls l (handleSendMessage h l)) = [] /\
   error (apply_calls l (handleSendMessage h l)) = error l /\
   disabled (send_button h (apply_calls l (handleSendMessage h l))) = true).
Proof.
  unfold handleSendMessage.
  destruct (truthy (trim (input l))) eqn:Ht, (isLoading h) eqn:Hl; cbn.
  - rewrite Ht. cbn. now split.
  - split; [reflexivity|]. now repeat split.
  - rewrite Ht. cbn. now split.
  - rewrite Ht. cbn. now split.
Qed.

(** X9.  Whatever message an event on the rendered chat sends, it is
    the input with a run of white space removed at either end: it is
    not empty and neither starts nor ends with white space. *)
Theorem sent_text_wellformed
    (p : SpecCreationChatProps) (h : SpecChat) (l : Local)
    (e : Element) (ev : UIEvent) (c : jsstring) :
  In e (elements (SpecCreationChat p h l)) ->
  In (sendMessage c) (fire (attrs_of e) ev) ->
  c <> [] /\
  (exists pre post,
      input l = pre ++ c ++ post /\
      forallb is_trim_space pre = true /\
      forallb is_trim_space post = true) /\
  (forall d r, c = d :: r -> is_trim_space d = false) /\
  (forall r d, c = r ++ [d] -> is_trim_space d = false).
Proof.
  intros He Hf.
  destruct (sent_is_trimmed_input p h l e ev c He Hf) as [_ [_ [_ [-> Hne]]]].
  split; [exact Hne|]. split; [apply trim_split|]. split.
  - intros d r Hd. eapply trim_head, Hd.
  - intros r d Hd. eapply trim_last, Hd.
Qed.

Lemma sent_text_wellformed_witness :
  In ("input", text_input chatting (typed "  hello world "), [])
     (elements (SpecCreationChat demo chatting (typed "  hello world "))) /\
  In (sendMessage (js "hello world"))
     (fire (text_input chatting (typed "  hello world ")) (KeyDown enter)) /\
  js "hello world" <> [] /\
  (exists pre post,
      js "  hello world " = pre ++ js "hello world" ++ post /\
      forallb is_trim_space pre = true /\
      forallb is_trim_space post = true).
Proof.
  assert (He : In ("input", text_input chatting (typed "  hello world "), [])
                  (elements (SpecCreationChat demo chatting
                                              (typed "  hello world "))))
    by (apply text_input_in_tree; reflexivity).
  assert (Hf : In (sendMessage (js "hello world"))
                  (fire (text_input chatting (typed "  hello world "))
                        (KeyDown enter)))
    by (right; left; reflexivity).
  destruct (sent_text_wellformed demo chatting (typed "  hello world ")
              _ (KeyDown enter) (js "hello world") He Hf) as [Hne [Hsplit _]].
  split; [exact He|]. split; [exact Hf|]. split; [exact Hne|exact Hsplit].
Defined.

(** X10.  [handleSendMessage] makes no call exactly when the input
    consists of white space only (in particular when it is empty) or a
    response is loading. *)
Theorem blank_input_iff (h : SpecChat) (l : Local) :
  handleSendMessage h l = [] <->
  forallb is_trim_space (input l) = true \/ isLoading h = true.
Proof.
  rewrite <- trim_empty_iff. unfold handleSendMessage.
  destruct (trim (input l)) as [|d r], (isLoading h); cbn;
    split; intros H; auto; try discriminate H;
    destruct H as [H|H]; discriminate H.
Qed.

(** X11.  Typing and sending.  With the input enabled and nothing
    loading, typing a text with a non-white-space character and then
    pressing Enter sends the trimmed text and leaves the input empty;
    the error state is untouched. *)
Theorem type_then_enter (h : SpecChat) (l : Local) (v : jsstring) :
  input_disabled h = false ->
  isLoading h = false ->
  trim v <> [] ->
  let l1 := apply_calls l (fire (text_input h l) (Change v)) in
  value (text_input h l1) = Some v /\
  fire (text_input h l1) (KeyDown enter)
    = [preventDefault; sendMessage (trim v); setInput []] /\
  apply_calls l1 (fire (text_input h l1) (KeyDown enter))
    = {| input := []; error := error l |}.
Proof.
  intros Hi Hl Hv l1. apply truthy_nonempty in Hv.
  assert (Hl1 : l1 = {| input := v; error := error l |}).
  { unfold l1, fire. cbn [disabled text_input]. now rewrite Hi. }
  rewrite Hl1. clear l1 Hl1.
  assert (Hf : fire (text_input h {| input := v; error := error l |})
                    (KeyDown enter)
               = [preventDefault; sendMessage (trim v); setInput []]).
  { unfold fire. cbn [disabled text_input]. rewrite Hi.
    cbn [onKeyDown text_input from_option].
    unfold handleKeyDown, handleSendMessage. cbn [input].
    now rewrite Hv, Hl. }
  rewrite Hf. now repeat split.
Qed.

Lemma type_then_enter_witness :
  input_disabled chatting = false /\
  isLoading chatting = false /\
  trim (js " build a todo app ") <> [] /\
  fire (text_input chatting
          (apply_calls initial
             (fire (text_input chatting initial)
                   (Change (js " build a todo app ")))))
       (KeyDown enter)
  = [preventDefault; sendMessage (js "build a todo app"); setInput []].
Proof.
  assert (Hv : trim (js " build a todo app ") <> []) by discriminate.
  destruct (type_then_enter chatting initial (js " build a todo app ")
              eq_refl eq_refl Hv) as [_ [H _]].
  split; [reflexivity|]. split; [reflexivity|]. split; [exact Hv|exact H].
Defined.

(** X20.  Typing over pending questions while loading.  When a
    response is loading but a question batch is present, the text input
    is enabled on a connected session and so is the send button for a
    non-blank input; yet the loading guard of [handleSendMessage] makes
    both the click and the Enter key send nothing, and the input keeps
    its text. *)
Theorem enabled_but_inert_while_loading (h : SpecChat) (l : Local) :
  isLoading h = true ->
  currentQuestions h <> None ->
  connectionStatus h = "connected" ->
  trim (input l) <> [] ->
  disabled (text_input h l) = false /\
  disabled (send_button h l) = false /\
  fire (send_button h l) Click = [] /\
  fire (text_input h l) (KeyDown enter) = [preventDefault] /\
  apply_calls l (fire (text_input h l) (KeyDown enter)) = l.
Proof.
  intros Hl Hq Hs Ht. apply truthy_nonempty in Ht.
  assert (Hi : input_disabled h = false)
    by (apply input_enabled_iff; auto).
  assert (Hb : disabled (send_button h l) = false).
  { cbn [disabled send_button]. unfold input_disabled in Hi.
    now rewrite Ht, <- orb_assoc, Hi. }
  assert (Hh : handleSendMessage h l = []).
  { unfold handleSendMessage. now rewrite Hl, orb_true_r. }
  split; [exact Hi|]. split; [exact Hb|].
  unfold fire. rewrite Hb. cbn [disabled text_input]. rewrite Hi.
  cbn [onClick onKeyDown send_button text_input default from_option].
  unfold handleKeyDown. cbn [key shiftKey enter].
  rewrite Hh. now repeat split.
Qed.

Lemma enabled_but_inert_while_loading_witness :
  let q := {| question := js "Which stack?"; header := js "Stack";
              options := []; multiSelect := false |} in
  let h := {| messages := []; isLoading := true; isComplete := false;
              connectionStatus := "connected";
              currentQuestions := Some [q] |} in
  isLoading h = true /\
  currentQuestions h <> None /\
  connectionStatus h = "connected" /\
  trim (input (typed "something else")) <> [] /\
  disabled (send_button h (typed "something else")) = false /\
  fire (send_button h (typed "something else")) Click = [].
Proof.
  intros q h.
  assert (Hq : currentQuestions h <> None) by discriminate.
  assert (Ht : trim (input (typed "something else")) <> []) by discriminate.
  destruct (enabled_but_inert_while_loading h (typed "something else")
              eq_refl Hq eq_refl Ht) as [_ [Hb [Hc _]]].
  split; [reflexivity|]. split; [exact Hq|]. split; [reflexivity|].
  split; [exact Ht|]. split; [exact Hb|exact Hc].
Defined.

(** *** What is rendered *)

(** X12.  The error banner.  The banner's text and its dismiss button
    are rendered exactly when the error state is a non-empty string;
    the cancel button of the header is always the first close button.
    Dismissing clears the error and leaves the input alone, so an error
    reported by the hook and then dismissed leaves no banner. *)
Theorem error_banner_lifecycle
    (p : SpecCreationChatProps) (h : SpecChat) (l : Local) :
  select (is_element_with "span" is_expr) (SpecCreationChat p h l) =
    match error l with
    | Some e => if truthy e then [("span", plain, [VExpr e])] else []
    | None => []
    end /\
  buttons_with (is_icon "X") (SpecCreationChat p h l) =
    cancel_button ::
    match error l with
    | Some e => if truthy e then [dismiss_button] else []
    | None => []
    end /\
  (forall err,
      error (apply_calls l (onError err)) = Some err /\
      input (apply_calls l (onError err)) = input l /\
      apply_calls (apply_calls l (onError err)) (fire dismiss_button Click)
        = {| input := input l; error := None |}) /\
  (forall e, error l = Some e -> e <> [] ->
      buttons_with (is_icon "X")
        (SpecCreationChat p h (apply_calls l (fire dismiss_button Click)))
      = [cancel_button]).
Proof.
  assert (Hb : forall l',
             buttons_with (is_icon "X") (SpecCreationChat p h l') =
             cancel_button ::
             match error l' with
             | Some e => if truthy e then [dismiss_button] else []
             | None => []
             end).
  { intros l'. unfold buttons_with.
    rewrite (select_via_interactive _ _ (button_with_interactive _)).
    rewrite SpecCreationChat_interactive, !List.filter_app.
    destruct (error l') as [[|c e]|],
      ((length (messages h) =? 0) && negb (isLoading h)
       && String.eqb (connectionStatus h) "error"),
      (isComplete h); reflexivity. }
  split; [|split; [apply Hb|split]].
  - rewrite select_SpecCreationChat. chat_cases p h l.
  - intros err. now repeat split.
  - intros e He Hne. now rewrite Hb.
Qed.

Lemma error_banner_lifecycle_witness :
  buttons_with (is_icon "X")
    (SpecCreationChat demo chatting (apply_calls initial (onError (js "Not connected"))))
  = [cancel_button; dismiss_button] /\
  buttons_with (is_icon "X")
    (SpecCreationChat demo chatting
       (apply_calls (apply_calls initial (onError (js "Not connected")))
                    (fire dismiss_button Click)))
  = [cancel_button].
Proof.
  split.
  - destruct (error_banner_lifecycle demo chatting
                (apply_calls initial (onError (js "Not connected"))))
      as [_ [H _]].
    rewrite H. reflexivity.
  - destruct (error_banner_lifecycle demo chatting
                (apply_calls initial (onError (js "Not connected"))))
      as [_ [_ [_ H]]].
    apply (H (js "Not connected")); [reflexivity|discriminate].
Defined.

(** X13.  The header.  In every state the chat shows its project name
    and offers exactly one Cancel button, which is never disabled and
    calls [onCancel]; the "Complete" badge is shown exactly when the
    session is complete. *)
Theorem header_always_cancellable
    (p : SpecCreationChatProps) (h : SpecChat) (l : Local) :
  titled "Cancel" (SpecCreationChat p h l) = [cancel_button] /\
  (forall ev, fire cancel_button ev =
              match ev with Click => [onCancel] | _ => [] end) /\
  select (is_element_with "h2" is_expr) (SpecCreationChat p h l) =
    [("h2", plain, [VText "Create Spec: "; VExpr (projectName p)])] /\
  spans_labelled "Complete" (SpecCreationChat p h l) =
    (if isComplete h
     then [("span", plain, [VComp (Icon "CheckCircle2"); VText "Complete"])]
     else []).
Proof.
  split; [|split; [|split]].
  - unfold titled. rewrite select_SpecCreationChat. chat_cases p h l.
  - now intros [].
  - rewrite select_SpecCreationChat. chat_cases p h l.
  - unfold spans_labelled. rewrite select_SpecCreationChat. chat_cases p h l.
Qed.

Lemma question_forms_rendered p h l :
  pick question_form (SpecCreationChat p h l) =
  match currentQuestions h with
  | Some (q :: qs) => [(q :: qs, handleAnswerSubmit, isLoading h)]
  | _ => []
  end.
Proof.
  rewrite pick_SpecCreationChat. unfold chat_message.
  rewrite (pick_comps_none question_form ChatMessageC) by reflexivity.
  chat_cases p h l.
Qed.

Lemma typing_dots_rendered p h l :
  pick typing_dots (SpecCreationChat p h l) =
  if isLoading h && negb (questions_truthy h) then [tt] else [].
Proof.
  rewrite pick_SpecCreationChat. unfold chat_message.
  rewrite (pick_comps_none typing_dots ChatMessageC) by reflexivity.
  chat_cases p h l.
Qed.

(** X14.  The question form.  A [QuestionOptions] form is rendered
    exactly when [currentQuestions] holds at least one question; there
    is then one form, it shows those questions, it is disabled exactly
    while loading, and submitting it passes the answers unchanged to
    [sendAnswer].  [null] and the empty batch render no form. *)
Theorem question_form_rendered_iff
    (p : SpecCreationChatProps) (h : SpecChat) (l : Local) :
  (forall q qs,
      currentQuestions h = Some (q :: qs) ->
      exists onSubmit,
        pick question_form (SpecCreationChat p h l)
          = [(q :: qs, onSubmit, isLoading h)] /\
        forall answers, onSubmit answers = [sendAnswer answers]) /\
  (currentQuestions h = None \/ currentQuestions h = Some [] ->
   pick question_form (SpecCreationChat p h l) = []).
Proof.
  rewrite question_forms_rendered. split.
  - intros q qs ->. now exists handleAnswerSubmit.
  - now intros [-> | ->].
Qed.

Lemma question_form_rendered_iff_witness :
  let q := {| question := js "Which stack?"; header := js "Stack";
              options := [{| label := js "React"; description := [] |}];
              multiSelect := false |} in
  let h := {| messages := []; isLoading := false; isComplete := false;
              connectionStatus := "connected";
              currentQuestions := Some [q] |} in
  exists onSubmit,
    pick question_form (SpecCreationChat demo h initial) = [([q], onSubmit, false)] /\
    onSubmit ∅ = [sendAnswer ∅].
Proof.
  intros q h.
  destruct (question_form_rendered_iff demo h initial) as [H _].
  destruct (H q [] eq_refl) as [f [Hf Hs]].
  exists f. split; [exact Hf|apply Hs].
Defined.

(** X15.  The typing indicator is rendered exactly when a response is
    loading and [currentQuestions] is null.  It is never rendered
    together with a question form, and whenever it is rendered the text
    input and the send button are disabled. *)
Theorem typing_indicator_rendered_iff
    (p : SpecCreationChatProps) (h : SpecChat) (l : Local) :
  (pick typing_dots (SpecCreationChat p h l) = [tt] <->
   isLoading h = true /\ currentQuestions h = None) /\
  (pick typing_dots (SpecCreationChat p h l) = [] <->
   ~ (isLoading h = true /\ currentQuestions h = None)) /\
  (pick typing_dots (SpecCreationChat p h l) = [tt] ->
   pick question_form (SpecCreationChat p h l) = [] /\
   Forall (fun a => disabled a = true)
          (by_tag "input" (SpecCreationChat p h l) ++
           buttons_with (is_icon "Send") (SpecCreationChat p h l))).
Proof.
  rewrite typing_dots_rendered, question_forms_rendered,
    inputs_rendered, send_buttons_rendered.
  unfold questions_truthy.
  destruct (isLoading h) eqn:Hl, (currentQuestions h) as [qs|] eqn:Hq; cbn;
    (split; [|split]); try (split; intros H); try discriminate;
    try (destruct H; discriminate); try tauto; try reflexivity;
    try (intros [H1 H2]; discriminate).
  intros _. split; [reflexivity|].
  destruct (isComplete h); [constructor|].
  repeat constructor.
  - cbn. unfold input_disabled, questions_truthy. now rewrite Hl, Hq.
  - apply send_button_disabled. unfold input_disabled, questions_truthy.
    now rewrite Hl, Hq.
Qed.

(** X16.  The transcript.  The chat renders one [ChatMessage] per entry
    of [messages], in the same order, and nothing else as a chat
    message.  The "Starting Spec Creation" placeholder is rendered
    exactly when the transcript is empty and nothing is loading. *)
Theorem transcript_rendered_in_order
    (p : SpecCreationChatProps) (h : SpecChat) (l : Local) :
  pick transcript_entry (SpecCreationChat p h l) = messages h /\
  (select (is_element_with "h3" (is_text "Starting Spec Creation"))
          (SpecCreationChat p h l)
   = [("h3", plain, [VText "Starting Spec Creation"])]
   <-> messages h = [] /\ isLoading h = false) /\
  (select (is_element_with "h3" (is_text "Starting Spec Creation"))
          (SpecCreationChat p h l) = []
   <-> ~ (messages h = [] /\ isLoading h = false)).
Proof.
  split.
  - rewrite pick_SpecCreationChat. unfold chat_message.
    rewrite (pick_comps_all transcript_entry ChatMessageC) by reflexivity.
    drop_parts p h l. cbn [app]. now rewrite !app_nil_r.
  - assert (Hn : select (is_element_with "h3" (is_text "Starting Spec Creation"))
                        (SpecCreationChat p h l)
                 = if (length (messages h) =? 0) && negb (isLoading h)
                   then [("h3", plain, [VText "Starting Spec Creation"])]
                   else []).
    { rewrite select_SpecCreationChat. chat_cases p h l. }
    rewrite Hn.
    assert (Hc : (length (messages h) =? 0) && negb (isLoading h) = true
                 <-> messages h = [] /\ isLoading h = false).
    { rewrite andb_true_iff, Nat.eqb_eq, negb_true_iff, length_zero_iff_nil.
      tauto. }
    destruct ((length (messages h) =? 0) && negb (isLoading h)).
    + assert (Hy : messages h = [] /\ isLoading h = false) by now apply Hc.
      split; split; first [tauto | discriminate | reflexivity].
    + assert (Hno : ~ (messages h = [] /\ isLoading h = false))
        by (intros H; apply Hc in H; discriminate H).
      split; split; first [tauto | discriminate | reflexivity].
Qed.

Lemma wifi_spans_rendered p h l :
  select (is_element_with "span" is_wifi_icon) (SpecCreationChat p h l) =
  select (is_element_with "span" is_wifi_icon) (ConnectionIndicator h).
Proof. rewrite select_SpecCreationChat. chat_cases p h l. Qed.

(** X17.  The connection indicator.  In every state the chat shows
    exactly one connection indicator.  It reads "Connected",
    "Connecting..." or "Error" for the status of that name and
    "Disconnected" for every other status string; whenever the text
    input is enabled it reads "Connected". *)
Theorem connection_indicator_label
    (p : SpecCreationChatProps) (h : SpecChat) (l : Local) :
  exists icon lbl,
    select (is_element_with "span" is_wifi_icon) (SpecCreationChat p h l)
      = [("span", plain, [VComp (Icon icon); VText lbl])] /\
    (lbl = "Connected" <-> connectionStatus h = "connected") /\
    (lbl = "Connecting..." <-> connectionStatus h = "connecting") /\
    (lbl = "Error" <-> connectionStatus h = "error") /\
    (lbl = "Disconnected" <->
     connectionStatus h <> "connected" /\
     connectionStatus h <> "connecting" /\
     connectionStatus h <> "error") /\
    (icon = "Wifi" <->
     connectionStatus h = "connected" \/ connectionStatus h = "connecting") /\
    (disabled (text_input h l) = false -> lbl = "Connected").
Proof.
  rewrite wifi_spans_rendered. unfold ConnectionIndicator.
  cbn [disabled text_input]. unfold input_disabled.
  destruct (String.eqb (connectionStatus h) "connected") eqn:E1;
    [apply String.eqb_eq in E1|apply String.eqb_neq in E1];
    (destruct (String.eqb (connectionStatus h) "connecting") eqn:E2;
     [apply String.eqb_eq in E2|apply String.eqb_neq in E2]);
    (destruct (String.eqb (connectionStatus h) "error") eqn:E3;
     [apply String.eqb_eq in E3|apply String.eqb_neq in E3]);
    try congruence;
    do 2 eexists; (split; [reflexivity|]);
    rewrite ?orb_true_r;
    repeat split; intros; try discriminate; try congruence; try tauto;
    intuition congruence.
Qed.

(** *** Effects *)

Lemma reruns_scroll changed :
  reruns changed scroll_effect =
  changed dep_messages || changed dep_currentQuestions || changed dep_isLoading.
Proof.
  unfold reruns. cbn [deps scroll_effect existsb].
  now rewrite orb_false_r, orb_assoc.
Qed.

Lemma reruns_focus changed p h l :
  reruns changed (focus_effect p h l) =
  changed dep_isLoading || changed dep_currentQuestions.
Proof.
  unfold reruns. cbn [deps focus_effect existsb]. now rewrite orb_false_r.
Qed.

Lemma update_commit changed r :
  commit_calls (Update changed) (render_effects r) =
  (if changed dep_messages || changed dep_currentQuestions
      || changed dep_isLoading
   then [scrollIntoView] else []) ++
  (if changed dep_isLoading || changed dep_currentQuestions
   then body (focus_effect (props r) (hook r) (local r)) else []).
Proof.
  unfold render_effects, effects, commit_calls. cbn [List.filter].
  rewrite mount_effect_never_reruns, reruns_scroll, reruns_focus.
  destruct (changed dep_messages || changed dep_currentQuestions
            || changed dep_isLoading),
    (changed dep_isLoading || changed dep_currentQuestions);
    cbn [flat_map cleanup scroll_effect focus_effect app];
    cbn [body scroll_effect app]; now rewrite ?app_nil_r.
Qed.

Lemma focus_body_ready r :
  In focus (body (focus_effect (props r) (hook r) (local r))) ->
  isLoading (hook r) = false /\
  currentQuestions (hook r) = None /\
  isComplete (hook r) = false /\
  body (focus_effect (props r) (hook r) (local r)) = [focus].
Proof.
  cbn [body focus_effect]. unfold inputRef_current, questions_truthy.
  rewrite inputs_rendered.
  destruct (isLoading (hook r)), (currentQuestions (hook r)),
    (isComplete (hook r)); cbn; intuition discriminate.
Qed.

(** X18.  The focus effect.  A commit focuses the text input only if
    nothing is loading, [currentQuestions] is null and the session is
    not complete (so that the input exists); on a re-render it does so
    only if [isLoading] or [currentQuestions] changed; unmounting never
    focuses.  No commit focuses more than once. *)
Theorem focus_only_when_input_ready (c : Commit) (r : Render) :
  In focus (commit_calls c (render_effects r)) ->
  isLoading (hook r) = false /\
  currentQuestions (hook r) = None /\
  isComplete (hook r) = false /\
  match c with
  | Mount => True
  | Update changed =>
      changed dep_isLoading = true \/ changed dep_currentQuestions = true
  | Unmount => False
  end /\
  List.filter is_focus (commit_calls c (render_effects r)) = [focus].
Proof.
  destruct c as [|changed|].
  - rewrite mount_commit. intros [H|[H|H]]; try discriminate H.
    destruct (focus_body_ready r H) as [Hl [Hq [Hc Hb]]].
    rewrite Hb. now repeat split.
  - rewrite update_commit.
    destruct (changed dep_messages || changed dep_currentQuestions
              || changed dep_isLoading),
      (changed dep_isLoading || changed dep_currentQuestions) eqn:Hch;
      cbn [app]; rewrite ?app_nil_r; intros H;
      try (destruct H as [H|H]; [discriminate H|]);
      try contradiction;
      destruct (focus_body_ready r H) as [Hl [Hq [Hc Hb]]];
      rewrite Hb; apply orb_true_iff in Hch; now repeat split.
  - cbn. intros [H|[]]. discriminate H.
Qed.

Lemma focus_only_when_input_ready_witness :
  In focus (commit_calls Mount
              (render_effects {| props := demo; hook := chatting; local := initial |})) /\
  isComplete chatting = false /\
  List.filter is_focus
    (commit_calls Mount
       (render_effects {| props := demo; hook := chatting; local := initial |}))
  = [focus].
Proof.
  assert (H : In focus
                (commit_calls Mount
                   (render_effects
                      {| props := demo; hook := chatting; local := initial |})))
    by (right; right; left; reflexivity).
  destruct (focus_only_when_input_ready Mount _ H) as [_ [_ [Hc [_ Hf]]]].
  split; [exact H|]. split; [exact Hc|exact Hf].
Defined.

(** X19.  The scroll effect and quiet re-renders.  Mounting scrolls to
    the end of the transcript once.  A re-render scrolls once if
    [messages], [currentQuestions] or [isLoading] changed, and a
    re-render in which none of them changed makes no call at all. *)
Theorem scroll_follows_changes (r : Render) (changed : Dep -> bool) :
  List.filter is_scrollIntoView (commit_calls Mount (render_effects r))
    = [scrollIntoView] /\
  (changed dep_messages || changed dep_currentQuestions
   || changed dep_isLoading = true ->
   List.filter is_scrollIntoView
     (commit_calls (Update changed) (render_effects r)) = [scrollIntoView]) /\
  (changed dep_messages || changed dep_currentQuestions
   || changed dep_isLoading = false ->
   commit_calls (Update changed) (render_effects r) = []).
Proof.
  rewrite mount_commit, update_commit.
  split; [|split].
  - destruct (focus_body_cases (props r) (hook r) (local r)) as [-> | ->];
      reflexivity.
  - intros ->.
    destruct (changed dep_isLoading || changed dep_currentQuestions);
      [|reflexivity].
    destruct (focus_body_cases (props r) (hook r) (local r)) as [-> | ->];
      reflexivity.
  - intros Hch. rewrite Hch.
    apply orb_false_iff in Hch as [Hch Hl].
    apply orb_false_iff in Hch as [_ Hq].
    now rewrite Hl, Hq.
Qed.

End SpecCreationChatMore.
